(** * nanoclaw-sidecar: the HTTP to IPC bridge of [src/main.py]

    A shallow embedding of the module: its configuration globals, the
    [SendRequest] model, the two handlers [health] and [send], and the part of
    the Python runtime they rely on ([pathlib], the filesystem, the [json]
    module restricted to flat objects of strings, and the way the web
    framework turns a handler's outcome into an HTTP response). *)

From Stdlib Require Import NArith ZArith String Ascii List Lia.
From Stdlib Require Decimal DecimalPos.
From stdpp Require Import base option list countable gmap.

Local Open Scope N_scope.
Local Open Scope list_scope.

(** ** Python strings

    A Python [str] is a sequence of code points; a code point is a number
    below [0x110000].  Surrogate code points ([0xD800..0xDFFF]) are legal
    elements of a [str]. *)

Abbreviation str := (list N).

(** An ASCII literal as a [str]. *)
Definition lit (s : string) : str :=
  map N_of_ascii (list_ascii_of_string s).
Arguments lit s%_string.

Definition code_point (c : N) : Prop := c < 0x110000.

Definition valid_str (s : str) : Prop := Forall code_point s.

Definition is_high_surrogate (c : N) : bool := (0xD800 <=? c) && (c <=? 0xDBFF).
Definition is_low_surrogate (c : N) : bool := (0xDC00 <=? c) && (c <=? 0xDFFF).

Definition is_surrogate (c : N) : bool := (0xD800 <=? c) && (c <=? 0xDFFF).

(** [s.encode("utf-8")] succeeds: no character of [s] is a surrogate. *)
Definition utf8_encodable (s : str) : bool :=
  forallb (fun c => negb (is_surrogate c)) s.

(** [x or y] on an optional string: [x] when it is truthy, that is neither
    [None] nor the empty string, and [y] otherwise. *)
Definition py_or (x : option str) (y : str) : str :=
  match x with
  | Some (c :: s) => c :: s
  | Some [] => y
  | None => y
  end.

(** [str(n)] for an [int]. *)
Fixpoint digits (d : Decimal.uint) : str :=
  match d with
  | Decimal.Nil => []
  | Decimal.D0 d => 48 :: digits d
  | Decimal.D1 d => 49 :: digits d
  | Decimal.D2 d => 50 :: digits d
  | Decimal.D3 d => 51 :: digits d
  | Decimal.D4 d => 52 :: digits d
  | Decimal.D5 d => 53 :: digits d
  | Decimal.D6 d => 54 :: digits d
  | Decimal.D7 d => 55 :: digits d
  | Decimal.D8 d => 56 :: digits d
  | Decimal.D9 d => 57 :: digits d
  end.

Definition str_of_int (z : Z) : str :=
  match z with
  | Z0 => [48]
  | Zpos p => digits (Pos.to_uint p)
  | Zneg p => 45 :: digits (Pos.to_uint p)
  end.

(** ** pathlib (POSIX flavour)

    A [Path] is kept in parsed form: its root (empty, one slash or two) and
    the list of its components. *)

Record Path := mkPath { root : str; tail : list str }.

Definition SEP : N := 47.

(** [rel.split(sep)] *)
Fixpoint split_sep (s : str) (cur : str) : list str :=
  match s with
  | [] => [cur]
  | c :: s' =>
      if c =? SEP then cur :: split_sep s' []
      else split_sep s' (cur ++ [c])
  end.

Definition is_dot (x : str) : bool :=
  match x with
  | [46] => true
  | _ => false
  end.

Definition is_empty (x : str) : bool :=
  match x with
  | [] => true
  | _ => false
  end.

(** The components kept by the parser: [x for x in rel.split(sep) if x and x != '.']. *)
Definition parse_parts (rel : str) : list str :=
  List.filter (fun x => negb (is_empty x) && negb (is_dot x)) (split_sep rel []).

(** [posixpath.splitroot] followed by the split above. *)
Definition Path_of_str (p : str) : Path :=
  match p with
  | [] => mkPath [] []
  | c1 :: r1 =>
      if c1 =? SEP then
        match r1 with
        | c2 :: r2 =>
            if c2 =? SEP then
              match r2 with
              | c3 :: _ =>
                  if c3 =? SEP then mkPath [SEP] (parse_parts r1)
                  else mkPath [SEP; SEP] (parse_parts r2)
              | [] => mkPath [SEP; SEP] []
              end
            else mkPath [SEP] (parse_parts r1)
        | [] => mkPath [SEP] []
        end
      else mkPath [] (parse_parts p)
  end.

(** [sep.join(parts)] *)
Fixpoint join_sep (parts : list str) : str :=
  match parts with
  | [] => []
  | [x] => x
  | x :: rest => x ++ SEP :: join_sep rest
  end.

(** [str(path)] *)
Definition path_str (p : Path) : str :=
  match root p, tail p with
  | [], [] => [46]
  | r, t => r ++ join_sep t
  end.

(** [path / segment]: an absolute segment replaces the path, any other one
    contributes its components. *)
Definition truediv (p : Path) (seg : str) : Path :=
  match seg with
  | c :: _ =>
      if c =? SEP then Path_of_str seg
      else mkPath (root p) (tail p ++ parse_parts seg)
  | [] => p
  end.

Infix "//" := truediv (at level 40, left associativity).

(** [path.parent] *)
Definition parent (p : Path) : Path :=
  mkPath (root p) (removelast (tail p)).

(** ** The filesystem

    The operating system sees the string form of a path.  A name is bound to
    a directory or to a regular file with its text.  Names are the strings
    the program passes: two strings that the operating system resolves to
    the same file (a doubled leading slash, a relative and an absolute path,
    a link) are different names here, and permissions, quotas and the
    encoding of the text are not represented. *)

Inductive node :=
| Dir
| File (text : str).

Abbreviation FS := (gmap str node).

(** ** Module globals *)

Record Globals := mkGlobals {
  _DATA_DIR : Path;
  _GROUPS_CONFIG : Path;
  _DEFAULT_GROUP : str;
  _GROUPS : gmap str str
}.

(** The state a handler runs in: the module's globals and the filesystem. *)
Record World := mkWorld {
  globals : Globals;
  fs : FS
}.

(** ** Exceptions and the handler monad *)

Inductive Exn :=
| HTTPException (status_code : N) (detail : str)
| OSError
| JSONDecodeError.

(** What code run while the module is loaded ends with: a value, an
    exception, or a value the embedding has no representation for. *)
Inductive outcome (A : Type) : Type :=
| Returns (a : A)
| Raises (e : Exn)
| Unmodelled.
Arguments Returns {A} a.
Arguments Raises {A} e.
Arguments Unmodelled {A}.

Definition M (A : Type) : Type := World -> (Exn + A) * World.

Definition ret {A} (a : A) : M A := fun w => (inr a, w).

Definition raise {A} (e : Exn) : M A := fun w => (inl e, w).

Definition bind {A B} (m : M A) (k : A -> M B) : M B :=
  fun w =>
    match m w with
    | (inl e, w') => (inl e, w')
    | (inr a, w') => k a w'
    end.

#[global] Instance M_ret : MRet M := @ret.
#[global] Instance M_bind : MBind M := fun A B k m => bind m k.

(** Reading a module global. *)
Definition global {A} (f : Globals -> A) : M A :=
  fun w => (inr (f (globals w)), w).

(** [path.exists()] *)
Definition fs_exists (p : Path) (t : FS) : bool :=
  bool_decide (is_Some (t !! path_str p)).

Definition exists_ (p : Path) : M bool :=
  fun w => (inr (fs_exists p (fs w)), w).

(** [path.read_text()] *)
Definition fs_read_text (p : Path) (t : FS) : Exn + str :=
  match t !! path_str p with
  | Some (File text) => inr text
  | _ => inl OSError
  end.

(** [path.write_text(data)]: create or truncate the file and store [data].
    The containing directory has to be a directory and the name must not be
    bound to a directory; any other outcome is an [OSError]. *)
Definition fs_write_text (p : Path) (data : str) (t : FS) : Exn + FS :=
  match t !! path_str (parent p), t !! path_str p with
  | Some Dir, Some Dir => inl OSError
  | Some Dir, _ => inr (<[path_str p := File data]> t)
  | _, _ => inl OSError
  end.

Definition write_text (p : Path) (data : str) : M unit :=
  fun w =>
    match fs_write_text p data (fs w) with
    | inr t => (inr tt, mkWorld (globals w) t)
    | inl e => (inl e, w)
    end.

(** ** The [json] module, on flat objects of strings

    Python's encoder with its defaults ([ensure_ascii=True], separators
    [", "] and [": "]) and its decoder in strict mode, for the documents this
    program writes and reads: one object whose members are strings. *)

Definition QUOTE : N := 34.
Definition BACKSLASH : N := 92.
Definition LETTER_u : N := 117.

Definition hexdigit (n : N) : N := if n <? 10 then 48 + n else 87 + n.

(** [{0:04x}] for a number below [0x10000]. *)
Definition hex4 (c : N) : str :=
  [ hexdigit (N.land (N.shiftr c 12) 0xf);
    hexdigit (N.land (N.shiftr c 8) 0xf);
    hexdigit (N.land (N.shiftr c 4) 0xf);
    hexdigit (N.land c 0xf) ].

Definition u_escape (c : N) : str := BACKSLASH :: LETTER_u :: hex4 c.

(** The surrogates written for a character [c] above [0xFFFF]:
    [n = c - 0x10000], [0xd800 | ((n >> 10) & 0x3ff)] and [0xdc00 | (n & 0x3ff)]. *)
Definition high_of (c : N) : N :=
  N.lor 0xd800 (N.land (N.shiftr (c - 0x10000) 10) 0x3ff).

Definition low_of (c : N) : N :=
  N.lor 0xdc00 (N.land (c - 0x10000) 0x3ff).

(** The replacement of one character by [py_encode_basestring_ascii]:
    printable ASCII stands for itself, the quote, the backslash and five
    control characters have a two-character escape, everything else below
    [0x10000] is written [\uXXXX], and the rest as a surrogate pair. *)
Definition escape_char (c : N) : str :=
  if c =? QUOTE then [BACKSLASH; QUOTE]
  else if c =? BACKSLASH then [BACKSLASH; BACKSLASH]
  else if c =? 10 then [BACKSLASH; 110]
  else if c =? 13 then [BACKSLASH; 114]
  else if c =? 9 then [BACKSLASH; 116]
  else if c =? 8 then [BACKSLASH; 98]
  else if c =? 12 then [BACKSLASH; 102]
  else if (0x20 <=? c) && (c <=? 0x7e) then [c]
  else if c <? 0x10000 then u_escape c
  else u_escape (high_of c) ++ u_escape (low_of c).

Fixpoint escape (s : str) : str :=
  match s with
  | [] => []
  | c :: s' => escape_char c ++ escape s'
  end.

Definition encode_str (s : str) : str := QUOTE :: escape s ++ [QUOTE].

(** A [dict] from strings to strings, in insertion order. *)
Abbreviation odict := (list (str * str)).

Fixpoint dumps_items (d : odict) : str :=
  match d with
  | [] => []
  | [(k, v)] => encode_str k ++ lit ": " ++ encode_str v
  | (k, v) :: rest =>
      encode_str k ++ lit ": " ++ encode_str v ++ lit ", " ++ dumps_items rest
  end.

(** [json.dumps(d)] *)
Definition json_dumps (d : odict) : str := lit "{" ++ dumps_items d ++ lit "}".

(** The value of a hexadecimal digit, either case. *)
Definition hexval (c : N) : option N :=
  if (48 <=? c) && (c <=? 57) then Some (c - 48)
  else if (97 <=? c) && (c <=? 102) then Some (c - 87)
  else if (65 <=? c) && (c <=? 70) then Some (c - 55)
  else None.

(** Four hexadecimal digits: [c <<= 4; c |= digit], four times. *)
Definition decode_hex4 (a b c d : N) : option N :=
  va ← hexval a; vb ← hexval b; vc ← hexval c; vd ← hexval d;
  Some (N.lor (N.shiftl (N.lor (N.shiftl (N.lor (N.shiftl va 4) vb) 4) vc) 4) vd).

Definition join_surrogates (hi lo : N) : N :=
  0x10000 + N.lor (N.shiftl (hi - 0xD800) 10) (lo - 0xDC00).

(** The character a backslash escape other than [\u] stands for. *)
Definition simple_escape (e : N) : option N :=
  if e =? QUOTE then Some QUOTE
  else if e =? BACKSLASH then Some BACKSLASH
  else if e =? 47 then Some 47
  else if e =? 98 then Some 8
  else if e =? 102 then Some 12
  else if e =? 110 then Some 10
  else if e =? 114 then Some 13
  else if e =? 116 then Some 9
  else None.

(** A decoded character in front of the rest of a scan. *)
Definition prepend (c : N) (o : option (str * str)) : option (str * str) :=
  match o with
  | Some (v, r) => Some (c :: v, r)
  | None => None
  end.

(** [scanstring], entered after the opening quote: the decoded string and
    the text after the closing quote.  A raw control character, an unknown
    escape, a malformed [\uXXXX] and a missing closing quote are errors.  A
    [\uXXXX] naming a high surrogate that is followed by a [\uXXXX] naming a
    low surrogate yields the single character the pair encodes. *)
Fixpoint scanstring (s : str) : option (str * str) :=
  match s with
  | [] => None
  | c :: s1 =>
      if c =? QUOTE then Some ([], s1)
      else if c =? BACKSLASH then
        match s1 with
        | [] => None
        | e :: s2 =>
            if e =? LETTER_u then
              match s2 with
              | a :: b :: c' :: d :: s3 =>
                  match decode_hex4 a b c' d with
                  | None => None
                  | Some u =>
                      if is_high_surrogate u then
                        match s3 with
                        | b1 :: u1 :: a2 :: b2 :: c2 :: d2 :: s4 =>
                            if (b1 =? BACKSLASH) && (u1 =? LETTER_u) then
                              match decode_hex4 a2 b2 c2 d2 with
                              | None => None
                              | Some u2 =>
                                  if is_low_surrogate u2
                                  then prepend (join_surrogates u u2) (scanstring s4)
                                  else prepend u (scanstring s3)
                              end
                            else prepend u (scanstring s3)
                        | _ => prepend u (scanstring s3)
                        end
                      else prepend u (scanstring s3)
                  end
              | _ => None
              end
            else
              match simple_escape e with
              | None => None
              | Some x => prepend x (scanstring s2)
              end
        end
      else if c <=? 0x1f then None
      else prepend c (scanstring s1)
  end.

Definition is_ws (c : N) : bool :=
  (c =? 32) || (c =? 9) || (c =? 10) || (c =? 13).

Fixpoint skip_ws (s : str) : str :=
  match s with
  | c :: s' => if is_ws c then skip_ws s' else s
  | [] => []
  end.

(** The next character has to be [c]. *)
Definition expect (c : N) (s : str) : option str :=
  match s with
  | c' :: r => if c' =? c then Some r else None
  | [] => None
  end.

(** The members of an object, entered at the first key.  Each turn reads
    [key : value] and ends at the closing brace or goes on after a comma.
    A later member with the same key replaces the earlier one.  A value
    that is not a string is outside the modelled fragment. *)
Fixpoint parse_members (fuel : nat) (s : str) (acc : gmap str str)
  : option (gmap str str * str) :=
  match fuel with
  | O => None
  | S fuel' =>
      s1 ← expect QUOTE s;
      '(key, s2) ← scanstring s1;
      s3 ← expect 58 (skip_ws s2);
      s4 ← expect QUOTE (skip_ws s3);
      '(val, s5) ← scanstring s4;
      let acc' := <[key := val]> acc in
      match skip_ws s5 with
      | c :: s6 =>
          if c =? 125 then Some (acc', s6)
          else if c =? 44 then parse_members fuel' (skip_ws s6) acc'
          else None
      | [] => None
      end
  end.

(** An object, entered after the opening brace. *)
Definition parse_object (s : str) : option (gmap str str * str) :=
  match skip_ws s with
  | c :: r =>
      if c =? 125 then Some (∅, r)
      else parse_members (length s) (c :: r) ∅
  | [] => None
  end.

(** [json.loads(s)] on a text: no byte order mark, optional white space, one
    object, optional white space, end of text.  [None] stands for every
    other text: Python raises [JSONDecodeError] on it or returns a value
    that is not a [dict[str, str]]. *)
Definition json_loads (s : str) : option (gmap str str) :=
  match s with
  | c :: _ => if c =? 0xfeff then None else
      s1 ← expect 123 (skip_ws s);
      '(m, s2) ← parse_object s1;
      match skip_ws s2 with
      | [] => Some m
      | _ :: _ => None
      end
  | [] => None
  end.

(** [json.loads] told apart from its failures.  The decoder reads a text
    from left to right without going back, so a text it leaves at a point
    where only a flat object of strings can go on is a text [json.loads]
    raises [JSONDecodeError] on; a text that goes on with a value of another
    kind, at the top or as the value of a member, is left to [Unmodelled]:
    Python may decode it to a value that is not a [dict[str, str]]. *)
Fixpoint decode_members (fuel : nat) (s : str) (acc : gmap str str)
  : outcome (gmap str str * str) :=
  match fuel with
  | O => Unmodelled
  | S fuel' =>
      match expect QUOTE s with
      | None => Raises JSONDecodeError
      | Some s1 =>
          match scanstring s1 with
          | None => Raises JSONDecodeError
          | Some (key, s2) =>
              match expect 58 (skip_ws s2) with
              | None => Raises JSONDecodeError
              | Some s3 =>
                  match skip_ws s3 with
                  | [] => Raises JSONDecodeError
                  | c :: s4 =>
                      if c =? QUOTE then
                        match scanstring s4 with
                        | None => Raises JSONDecodeError
                        | Some (val, s5) =>
                            let acc' := <[key := val]> acc in
                            match skip_ws s5 with
                            | c' :: s6 =>
                                if c' =? 125 then Returns (acc', s6)
                                else if c' =? 44
                                then decode_members fuel' (skip_ws s6) acc'
                                else Raises JSONDecodeError
                            | [] => Raises JSONDecodeError
                            end
                        end
                      else Unmodelled
                  end
              end
          end
      end
  end.

(** After the value: white space and the end of the text. *)
Definition decode_end (m : gmap str str) (s : str) : outcome (gmap str str) :=
  match skip_ws s with
  | [] => Returns m
  | _ :: _ => Raises JSONDecodeError
  end.

Definition decode_groups (text : str) : outcome (gmap str str) :=
  match text with
  | [] => Raises JSONDecodeError
  | c :: _ =>
      if c =? 0xfeff then Raises JSONDecodeError
      else
        match skip_ws text with
        | [] => Raises JSONDecodeError
        | c1 :: s1 =>
            if c1 =? 123 then
              match skip_ws s1 with
              | [] => Raises JSONDecodeError
              | c2 :: r =>
                  if c2 =? 125 then decode_end ∅ r
                  else
                    match decode_members (length s1) (c2 :: r) ∅ with
                    | Returns (m, s2) => decode_end m s2
                    | Raises e => Raises e
                    | Unmodelled => Unmodelled
                    end
              end
            else Unmodelled
        end
  end.

(** ** Configuration, read once when the module is loaded *)

(** [os.environ.get(name, default)] *)
Definition environ_get (environ : gmap str str) (name default : str) : str :=
  match environ !! name with
  | Some v => v
  | None => default
  end.

(** [_load_groups]: the empty mapping when nothing exists at
    [groups_config], and whatever [json.loads] makes of the text of the file
    otherwise; nothing is checked about the value decoded. *)
Definition _load_groups (groups_config : Path) (t : FS) : outcome (gmap str str) :=
  if negb (fs_exists groups_config t) then Returns ∅
  else
    match fs_read_text groups_config t with
    | inl e => Raises e
    | inr text => decode_groups text
    end.

(** The assignments at the top of the module. *)
Definition load_module (environ : gmap str str) (t : FS) : outcome World :=
  let data_dir := Path_of_str (environ_get environ (lit "NANOCLAW_DATA_DIR") (lit "/data")) in
  let groups_config :=
    Path_of_str (environ_get environ (lit "GROUPS_CONFIG") (lit "/config/groups.json")) in
  let default_group := environ_get environ (lit "DEFAULT_GROUP") [] in
  match _load_groups groups_config t with
  | Returns groups =>
      Returns (mkWorld (mkGlobals data_dir groups_config default_group groups) t)
  | Raises e => Raises e
  | Unmodelled => Unmodelled
  end.

(** ** The application *)

(** The request body for [POST /send]. *)
Record SendRequest := mkSendRequest {
  message : str;
  group : option str
}.

(** What a handler returns: [{"ok": True}] with or without a ["file"]. *)
Inductive Reply :=
| Ok
| OkFile (file : str).

(** [GET /health] *)
Definition health : M Reply := mret Ok.

(** The group a request is sent to: [req.group or _DEFAULT_GROUP]. *)
Definition group_name (req : SendRequest) (g : Globals) : str :=
  py_or (group req) (_DEFAULT_GROUP g).

(** [_DATA_DIR / "ipc" / "main" / "messages"] *)
Definition ipc_dir (g : Globals) : Path :=
  _DATA_DIR g // lit "ipc" // lit "main" // lit "messages".

(** [f"webhook-{ms}.json"], [ms] being [int(time.time() * 1000)]. *)
Definition filename (ms : Z) : str :=
  lit "webhook-" ++ str_of_int ms ++ lit ".json".

Definition ipc_file (g : Globals) (ms : Z) : Path := ipc_dir g // filename ms.

(** [{"type": "message", "chatJid": jid, "text": text}] *)
Definition payload (jid text : str) : odict :=
  [ (lit "type", lit "message"); (lit "chatJid", jid); (lit "text", text) ].

Definition not_found_detail (name : str) : str :=
  lit "Group '" ++ name ++ lit "' not found in groups config".

(** [POST /send]; [ms] is the reading of the clock in milliseconds. *)
Definition send (ms : Z) (req : SendRequest) : M Reply :=
  g ← global id;
  let name := group_name req g in
  match _GROUPS g !! name with
  | None => raise (HTTPException 404 (not_found_detail name))
  | Some jid =>
      present ← exists_ (ipc_dir g);
      if negb present
      then raise (HTTPException 503 (lit "IPC messages directory does not exist"))
      else
        write_text (ipc_file g ms) (json_dumps (payload jid (message req)));;
        mret (OkFile (path_str (ipc_file g ms)))
  end.

(** ** The web framework around the handlers *)

(** A value in a JSON request body.  Of a number only one thing matters
    here: whether it is finite or one of [NaN], [Infinity], [-Infinity],
    which the decoder of the request accepts. *)
#[warnings="-register-all"] Inductive jval :=
| JNull
| JBool (b : bool)
| JNumber (finite : bool)
| JString (s : str)
| JArray (items : list jval)
| JObject (members : list (str * jval)).

(** A value can be written into a JSON response: its strings are encodable
    and its numbers finite (the response is rendered with [allow_nan=False]
    and encoded as UTF-8). *)
Fixpoint renderable (v : jval) : bool :=
  match v with
  | JNull => true
  | JBool _ => true
  | JNumber finite => finite
  | JString s => utf8_encodable s
  | JArray items => forallb renderable items
  | JObject members =>
      forallb (fun kv => utf8_encodable (fst kv) && renderable (snd kv)) members
  end.

(** The same for a whole body, keys included. *)
Definition body_renderable (body : gmap str jval) : bool :=
  bool_decide
    (map_Forall (fun k v => utf8_encodable k = true /\ renderable v = true) body).

(** The validation the framework derives from the declaration of
    [SendRequest], [message: str] and [group: str | None = None]: [message]
    is required and a string; [group] is a string, [null] or absent; other
    members of the body are ignored. *)
Definition validate (body : gmap str jval) : option SendRequest :=
  match body !! lit "message" with
  | Some (JString m) =>
      match body !! lit "group" with
      | None | Some JNull => Some (mkSendRequest m None)
      | Some (JString g) => Some (mkSendRequest m (Some g))
      | Some _ => None
      end
  | _ => None
  end.

(** The input a failed validation reports back.  Each error carries the
    input it is about: the whole body for a missing [message], the value of
    [message] when it is not a string, the value of [group] when it is
    neither a string nor [null].  The 422 response can be rendered when all
    of them can. *)
Definition errors_renderable (body : gmap str jval) : bool :=
  match body !! lit "message" with
  | None => body_renderable body
  | Some (JString _) => true
  | Some v => renderable v
  end &&
  match body !! lit "group" with
  | None | Some JNull | Some (JString _) => true
  | Some v => renderable v
  end.

Inductive Content :=
| Json (r : Reply)
| Detail (d : str)
| ValidationErrors
| InternalServerError.

Record Response := mkResponse {
  status : N;
  content : Content
}.

(** The strings of a content can be encoded. *)
Definition content_encodable (c : Content) : bool :=
  match c with
  | Json Ok => true
  | Json (OkFile file) => utf8_encodable file
  | Detail d => utf8_encodable d
  | ValidationErrors => true
  | InternalServerError => true
  end.

(** A JSON response: the content is rendered and encoded when the response
    is built, and a content that cannot be encoded makes that step raise,
    which the server answers with 500. *)
Definition json_response (status : N) (c : Content) : Response :=
  if content_encodable c then mkResponse status c
  else mkResponse 500 InternalServerError.

(** The response for the outcome of a handler.  What the handler did to the
    state stays done when the response cannot be built. *)
Definition respond (m : M Reply) (w : World) : Response * World :=
  match m w with
  | (inr r, w') => (json_response 200 (Json r), w')
  | (inl (HTTPException s d), w') => (json_response s (Detail d), w')
  | (inl _, w') => (mkResponse 500 InternalServerError, w')
  end.

Inductive Request :=
| GET_health
| POST_send (body : gmap str jval).

Definition app (ms : Z) (r : Request) (w : World) : Response * World :=
  match r with
  | GET_health => respond health w
  | POST_send body =>
      match validate body with
      | Some req => respond (send ms req) w
      | None =>
          (if errors_renderable body then mkResponse 422 ValidationErrors
           else mkResponse 500 InternalServerError, w)
      end
  end.

(** ** Notions used in the statements *)

(** [dict(pairs)]: later pairs replace earlier ones with the same key. *)
Definition dict_of (d : odict) : gmap str str :=
  foldl (fun acc kv => <[kv.1 := kv.2]> acc) ∅ d.

(** No high surrogate is directly followed by a low surrogate. *)
Fixpoint no_split_pair (s : str) : bool :=
  match s with
  | [] => true
  | c :: s' =>
      match s' with
      | c2 :: _ => negb (is_high_surrogate c && is_low_surrogate c2)
      | [] => true
      end && no_split_pair s'
  end.

(** The strings the encoder and the decoder agree on. *)
Definition plain_str (s : str) : Prop := valid_str s /\ no_split_pair s = true.

(** A body carrying the given fields and nothing else. *)
Definition send_body (msg : str) (grp : option str) : gmap str jval :=
  match grp with
  | Some g => <[lit "group" := JString g]> {[ lit "message" := JString msg ]}
  | None => {[ lit "message" := JString msg ]}
  end.

(** [sub] occurs in [s]. *)
Definition contains (s sub : str) : Prop :=
  exists pre post, s = pre ++ sub ++ post.

(** Executable forms of [valid_str] and [plain_str]. *)
Definition valid_strb (s : str) : bool := forallb (fun c => c <? 0x110000) s.

Definition plain_strb (s : str) : bool := valid_strb s && no_split_pair s.

(** The object a reader of the file is meant to find. *)
Definition ipc_message (jid text : str) : gmap str str :=
  <[lit "text" := text]>
    (<[lit "chatJid" := jid]> (<[lit "type" := lit "message"]> ∅)).

(** ** The configuration of the test suite

    Two groups, [dev] being the default, and a data directory whose
    [ipc/main/messages] exists. *)

Definition test_groups : gmap str str :=
  <[lit "dev" := lit "123456789@g.us"]>
    (<[lit "alerts" := lit "987654321@g.us"]> ∅).

Definition test_globals : Globals :=
  mkGlobals (Path_of_str (lit "/data")) (Path_of_str (lit "/config/groups.json"))
    (lit "dev") test_groups.

Definition test_fs : FS :=
  <[lit "/data/ipc/main/messages" := Dir]> (<[lit "/data" := Dir]> ∅).

Definition test_world : World := mkWorld test_globals test_fs.

(** The same configuration without the messages directory. *)
Definition bare_world : World :=
  mkWorld test_globals (<[lit "/data" := Dir]> ∅).

(** The same configuration with one more group, named by the empty string. *)
Definition unnamed_world : World :=
  mkWorld
    (mkGlobals (_DATA_DIR test_globals) (_GROUPS_CONFIG test_globals) (lit "dev")
       (<[[] := lit "555@g.us"]> test_groups))
    test_fs.

(** ** Notions used in the proofs *)

(** A check of every number below a bound, by iteration. *)
Definition all_below (P : N -> bool) (n : N) : bool :=
  snd (N.iter n (fun '(i, b) => (N.succ i, b && P i)) (0, true)).

Definition hex4_ok (c : N) : bool :=
  match hex4 c with
  | [a; b; x; d] =>
      match decode_hex4 a b x d with
      | Some u => u =? c
      | None => false
      end
  | _ => false
  end.

(** The text at [r] does not start with the escape of a low surrogate. *)
Definition no_low_ahead (r : str) : Prop :=
  forall a b c d t,
    r = BACKSLASH :: LETTER_u :: a :: b :: c :: d :: t ->
    exists u, decode_hex4 a b c d = Some u /\ is_low_surrogate u = false.

(** A computation that leaves the module's globals as they are. *)
Definition preserves_globals {A} (m : M A) : Prop :=
  forall w, globals (m w).2 = globals w.

(** ** Notions used for the further properties *)

(** A printable ASCII character. *)
Definition printable (c : N) : Prop := 0x20 <= c /\ c <= 0x7e.

(** The groups of the test suite as they stand in [groups.json]. *)
Definition test_config : odict :=
  [ (lit "dev", lit "123456789@g.us"); (lit "alerts", lit "987654321@g.us") ].

(** The filesystem of the test suite with its configuration file. *)
Definition config_fs : FS :=
  <[lit "/config/groups.json" := File (json_dumps test_config)]> test_fs.

(** The configuration of the test suite where [ipc/main/messages] is a
    regular file. *)
Definition blocked_world : World :=
  mkWorld test_globals
    (<[lit "/data/ipc/main/messages" := File []]> (<[lit "/data" := Dir]> ∅)).

(** ** The name a request is looked up under *)

(** [send] handles the request as the lookup of [name] prescribes: a name
    the mapping does not have is reported in a 404 and nothing is written;
    for a name the mapping sends to an identifier, the answer is 503 without
    the messages directory, the write fails where it cannot succeed, and
    otherwise the payload with that identifier is written and its path
    returned. *)
Definition looks_up (ms : Z) (req : SendRequest) (w : World) (name : str) : Prop :=
  let g := globals w in
  let f := path_str (ipc_file g ms) in
  send ms req w =
  match _GROUPS g !! name with
  | None => (inl (HTTPException 404 (not_found_detail name)), w)
  | Some jid =>
      match fs w !! path_str (ipc_dir g) with
      | None =>
          (inl (HTTPException 503 (lit "IPC messages directory does not exist")), w)
      | Some (File _) => (inl OSError, w)
      | Some Dir =>
          match fs w !! f with
          | Some Dir => (inl OSError, w)
          | _ =>
              (inr (OkFile f),
               mkWorld g (<[f := File (json_dumps (payload jid (message req)))]> (fs w)))
          end
      end
  end.

(** The configuration of the test suite under a data directory whose name
    holds a surrogate, as the environment yields for a byte that is not
    UTF-8. *)
Definition odd_dir : str := lit "/d" ++ [0xDC80].

Definition odd_world : World :=
  mkWorld
    (mkGlobals (Path_of_str odd_dir) (_GROUPS_CONFIG test_globals) (lit "dev") test_groups)
    (<[odd_dir ++ lit "/ipc/main/messages" := Dir]> ∅).

(** The configuration of the test suite with a default group whose name
    holds a surrogate. *)
Definition odd_default_world : World :=
  mkWorld
    (mkGlobals (_DATA_DIR test_globals) (_GROUPS_CONFIG test_globals) [0xDC80] test_groups)
    test_fs.

(** ** The texts of a flat object of strings

    Every way of writing such an object: the characters of a string written
    raw or through an escape, white space wherever JSON allows it. *)

(** One character of a string literal as it is written. *)
Inductive token :=
| Raw (c : N)
| Esc (e : N)
| U4 (a b c d : N)
| UPair (a b c d a' b' c' d' : N).

Definition token_text (t : token) : str :=
  match t with
  | Raw c => [c]
  | Esc e => [BACKSLASH; e]
  | U4 a b c d => [BACKSLASH; LETTER_u; a; b; c; d]
  | UPair a b c d a' b' c' d' =>
      [BACKSLASH; LETTER_u; a; b; c; d; BACKSLASH; LETTER_u; a'; b'; c'; d']
  end.

(** The character a token stands for, when it is well formed: a raw
    character is neither the quote, nor the backslash, nor a control
    character; an escape is one JSON has; the digits are hexadecimal; the
    two halves of a pair are a high and a low surrogate. *)
Definition token_char (t : token) : option N :=
  match t with
  | Raw c =>
      if (c =? QUOTE) || (c =? BACKSLASH) || (c <=? 0x1f) then None else Some c
  | Esc e => if e =? LETTER_u then None else simple_escape e
  | U4 a b c d => decode_hex4 a b c d
  | UPair a b c d a' b' c' d' =>
      match decode_hex4 a b c d, decode_hex4 a' b' c' d' with
      | Some u, Some u' =>
          if is_high_surrogate u && is_low_surrogate u'
          then Some (join_surrogates u u') else None
      | _, _ => None
      end
  end.

(** A [U4] for a high surrogate right before a [U4] for a low surrogate is
    not a way of writing two characters: that text is the [UPair]. *)
Definition splits_pair (t : token) (rest : list token) : bool :=
  match t, rest with
  | U4 a b c d, U4 a' b' c' d' :: _ =>
      match decode_hex4 a b c d, decode_hex4 a' b' c' d' with
      | Some u, Some u' => is_high_surrogate u && is_low_surrogate u'
      | _, _ => false
      end
  | _, _ => false
  end.

(** The string a list of tokens stands for. *)
Fixpoint literal_chars (ts : list token) : option str :=
  match ts with
  | [] => Some []
  | t :: rest =>
      if splits_pair t rest then None
      else
        match token_char t, literal_chars rest with
        | Some c, Some s => Some (c :: s)
        | _, _ => None
        end
  end.

Definition literal_text (ts : list token) : str :=
  QUOTE :: flat_map token_text ts ++ [QUOTE].

Definition ws_ok (w : str) : bool := forallb is_ws w.

(** A member with the white space around its parts. *)
Record member := mkMember {
  ws_before : str;
  m_key : list token;
  ws_key : str;
  ws_colon : str;
  m_val : list token;
  ws_val : str
}.

Definition member_str (m : member) : str :=
  ws_before m ++ literal_text (m_key m) ++ ws_key m ++
  58 :: ws_colon m ++ literal_text (m_val m) ++ ws_val m.

Definition member_pair (m : member) : option (str * str) :=
  if ws_ok (ws_before m) && ws_ok (ws_key m) && ws_ok (ws_colon m) && ws_ok (ws_val m)
  then
    match literal_chars (m_key m), literal_chars (m_val m) with
    | Some k, Some v => Some (k, v)
    | _, _ => None
    end
  else None.

Fixpoint members_str (ms : list member) : str :=
  match ms with
  | [] => []
  | [m] => member_str m
  | m :: rest => member_str m ++ 44 :: members_str rest
  end.

Fixpoint members_pairs (ms : list member) : option odict :=
  match ms with
  | [] => Some []
  | m :: rest =>
      match member_pair m, members_pairs rest with
      | Some p, Some d => Some (p :: d)
      | _, _ => None
      end
  end.

(** A whole text: white space, the object, white space. *)
Record layout := mkLayout {
  ws_lead : str;
  ws_open : str;
  l_members : list member;
  ws_trail : str
}.

Definition layout_text (L : layout) : str :=
  ws_lead L ++ 123 :: ws_open L ++ members_str (l_members L) ++ 125 :: ws_trail L.

(** The pairs a layout lists, in order, when it is well formed. *)
Definition layout_pairs (L : layout) : option odict :=
  if ws_ok (ws_lead L) && ws_ok (ws_open L) && ws_ok (ws_trail L)
  then members_pairs (l_members L) else None.

(** ** How the encoder lays a text out *)

(** The token the encoder writes for a character. *)
Definition char_token (c : N) : token :=
  if c =? QUOTE then Esc QUOTE
  else if c =? BACKSLASH then Esc BACKSLASH
  else if c =? 10 then Esc 110
  else if c =? 13 then Esc 114
  else if c =? 9 then Esc 116
  else if c =? 8 then Esc 98
  else if c =? 12 then Esc 102
  else if (0x20 <=? c) && (c <=? 0x7e) then Raw c
  else if c <? 0x10000 then
    U4 (hexdigit (N.land (N.shiftr c 12) 0xf)) (hexdigit (N.land (N.shiftr c 8) 0xf))
       (hexdigit (N.land (N.shiftr c 4) 0xf)) (hexdigit (N.land c 0xf))
  else
    let h := high_of c in
    let l := low_of c in
    UPair (hexdigit (N.land (N.shiftr h 12) 0xf)) (hexdigit (N.land (N.shiftr h 8) 0xf))
          (hexdigit (N.land (N.shiftr h 4) 0xf)) (hexdigit (N.land h 0xf))
          (hexdigit (N.land (N.shiftr l 12) 0xf)) (hexdigit (N.land (N.shiftr l 8) 0xf))
          (hexdigit (N.land (N.shiftr l 4) 0xf)) (hexdigit (N.land l 0xf)).

(** The escapes of a high surrogate and of the low surrogate after it, seen
    as the pair a reader takes them for. *)
Definition pair_token (c c2 : N) : token :=
  UPair (hexdigit (N.land (N.shiftr c 12) 0xf)) (hexdigit (N.land (N.shiftr c 8) 0xf))
        (hexdigit (N.land (N.shiftr c 4) 0xf)) (hexdigit (N.land c 0xf))
        (hexdigit (N.land (N.shiftr c2 12) 0xf)) (hexdigit (N.land (N.shiftr c2 8) 0xf))
        (hexdigit (N.land (N.shiftr c2 4) 0xf)) (hexdigit (N.land c2 0xf)).

(** The tokens of the text the encoder writes for a string. *)
Fixpoint tokens_of (s : str) : list token :=
  match s with
  | [] => []
  | c :: s1 =>
      match s1 with
      | c2 :: s2 =>
          if is_high_surrogate c && is_low_surrogate c2
          then pair_token c c2 :: tokens_of s2
          else char_token c :: tokens_of s1
      | [] => [char_token c]
      end
  end.

(** The string a reader gets back: a high surrogate directly followed by a
    low one has become the character they encode. *)
Fixpoint rejoin (s : str) : str :=
  match s with
  | [] => []
  | c :: s1 =>
      match s1 with
      | c2 :: s2 =>
          if is_high_surrogate c && is_low_surrogate c2
          then join_surrogates c c2 :: rejoin s2
          else c :: rejoin s1
      | [] => [c]
      end
  end.

(** The layout of [json.dumps]: a space after each colon and each comma. *)
Fixpoint dumps_members (first : bool) (d : odict) : list member :=
  match d with
  | [] => []
  | (k, v) :: rest =>
      mkMember (if first then [] else [32]) (tokens_of k) [] [32] (tokens_of v) []
      :: dumps_members false rest
  end.

Definition dumps_layout (d : odict) : layout := mkLayout [] [] (dumps_members true d) [].

(** ** A configuration file written by hand

    Line breaks, tabs and spaces around the parts, and an [@] written as an
    escape in the first identifier. *)

Definition raws (s : string) : list token := map Raw (lit s).

Definition hand_layout : layout :=
  mkLayout [10] [10; 32; 32]
    [ mkMember [] (raws "dev") [32] [9]
        (raws "123456789" ++ [U4 48 48 52 48] ++ raws "g.us") [];
      mkMember [10; 32; 32] (raws "alerts") [] [] (raws "987654321@g.us") [13; 10] ]
    [10].

Definition hand_fs : FS :=
  <[lit "/config/groups.json" := File (layout_text hand_layout)]> test_fs.

(** A configuration file that lists the group [dev] twice. *)
Definition twice_layout : layout :=
  mkLayout [] [32]
    [ mkMember [] (raws "dev") [] [32] (raws "1@g.us") [];
      mkMember [10; 32] (raws "dev") [] [32] (raws "2@g.us") [32] ]
    [].

(** * Properties *)

(** ** Bounded checks and bit arithmetic *)

Lemma all_below_spec P n :
  all_below P n = true -> forall c, c < n -> P c = true.
Proof.
  unfold all_below.
  set (f := fun '(i, b) => (N.succ i, b && P i)).
  assert (H : forall m, fst (N.iter m f (0, true)) = m /\
     (snd (N.iter m f (0, true)) = true -> forall c, c < m -> P c = true)).
  { induction m as [|m [IH1 IH2]] using N.peano_ind.
    - split; [reflexivity|]. intros _ c Hc. lia.
    - rewrite N.iter_succ.
      destruct (N.iter m f (0, true)) as [i b]. simpl in *. subst i.
      split; [reflexivity|].
      intros Hb c Hc. apply andb_true_iff in Hb as [Hb HP].
      destruct (N.eq_dec c m) as [->|Hne]; [exact HP|].
      apply IH2; [exact Hb|lia]. }
  intros Hn. apply (proj2 (H n)). exact Hn.
Qed.

Lemma hex4_all : all_below hex4_ok 0x10000 = true.
Proof. vm_compute. reflexivity. Qed.

Lemma decode_hex4_hex4 c :
  c < 0x10000 ->
  decode_hex4 (hexdigit (N.land (N.shiftr c 12) 0xf))
              (hexdigit (N.land (N.shiftr c 8) 0xf))
              (hexdigit (N.land (N.shiftr c 4) 0xf))
              (hexdigit (N.land c 0xf)) = Some c.
Proof.
  intros Hc. pose proof (all_below_spec _ _ hex4_all c Hc) as H.
  unfold hex4_ok, hex4 in H.
  destruct (decode_hex4 _ _ _ _) as [u|]; [|discriminate].
  apply N.eqb_eq in H. congruence.
Qed.

Lemma land_shiftl_low h l : l < 2 ^ 10 -> N.land (N.shiftl h 10) l = 0.
Proof.
  intros Hl. apply N.bits_inj_0. intros i.
  rewrite N.land_spec.
  destruct (N.lt_ge_cases i 10) as [Hi|Hi].
  - rewrite N.shiftl_spec_low by exact Hi. reflexivity.
  - destruct (N.eq_dec l 0) as [->|Hl0].
    + rewrite N.bits_0. apply andb_false_r.
    + rewrite (N.bits_above_log2 l i); [apply andb_false_r|].
      apply N.lt_le_trans with 10; [|exact Hi].
      apply N.log2_lt_pow2; lia.
Qed.

Lemma lor_shiftl_low h l : l < 2 ^ 10 -> N.lor (N.shiftl h 10) l = h * 1024 + l.
Proof.
  intros Hl.
  rewrite <- N.lxor_lor by (apply land_shiftl_low; exact Hl).
  rewrite <- N.add_nocarry_lxor by (apply land_shiftl_low; exact Hl).
  rewrite N.shiftl_mul_pow2. reflexivity.
Qed.

Lemma high_of_eq c :
  0x10000 <= c -> c < 0x110000 -> high_of c = 0xd800 + (c - 0x10000) / 1024.
Proof.
  intros H1 H2. unfold high_of.
  change 0x3ff with (N.ones 10). rewrite N.land_ones, N.shiftr_div_pow2.
  change (2 ^ 10) with 1024.
  assert (Hq : (c - 0x10000) / 1024 < 1024)
    by (apply N.Div0.div_lt_upper_bound; lia).
  rewrite N.mod_small by exact Hq.
  change 0xd800 with (N.shiftl 54 10) at 1.
  rewrite lor_shiftl_low by exact Hq. lia.
Qed.

Lemma low_of_eq c :
  0x10000 <= c -> low_of c = 0xdc00 + (c - 0x10000) mod 1024.
Proof.
  intros H1. unfold low_of.
  change 0x3ff with (N.ones 10). rewrite N.land_ones.
  change (2 ^ 10) with 1024.
  assert (Hq : (c - 0x10000) mod 1024 < 1024) by (apply N.mod_lt; lia).
  change 0xdc00 with (N.shiftl 55 10) at 1.
  rewrite lor_shiftl_low by exact Hq. lia.
Qed.

Lemma surrogates_of c :
  0x10000 <= c -> c < 0x110000 ->
  high_of c < 0x10000 /\ low_of c < 0x10000 /\
  is_high_surrogate (high_of c) = true /\
  is_low_surrogate (high_of c) = false /\
  is_low_surrogate (low_of c) = true /\
  join_surrogates (high_of c) (low_of c) = c.
Proof.
  intros H1 H2.
  rewrite (high_of_eq c H1 H2), (low_of_eq c H1).
  assert (Hq : (c - 0x10000) / 1024 < 1024)
    by (apply N.Div0.div_lt_upper_bound; lia).
  assert (Hr : (c - 0x10000) mod 1024 < 1024) by (apply N.mod_lt; lia).
  pose proof (N.div_mod (c - 0x10000) 1024 ltac:(lia)) as Hdm.
  revert Hq Hr Hdm.
  generalize ((c - 0x10000) / 1024), ((c - 0x10000) mod 1024).
  intros q r Hq Hr Hdm.
  unfold is_high_surrogate, is_low_surrogate, join_surrogates.
  repeat split; try lia.
  - apply andb_true_iff; split; apply N.leb_le; lia.
  - apply andb_false_iff; left; apply N.leb_gt; lia.
  - apply andb_true_iff; split; apply N.leb_le; lia.
  - replace (0xd800 + q - 0xD800) with q by lia.
    replace (0xdc00 + r - 0xDC00) with r by lia.
    rewrite lor_shiftl_low by exact Hr. lia.
Qed.

(** ** Scanning a string, one step at a time *)

Lemma scan_quote r : scanstring (QUOTE :: r) = Some ([], r).
Proof. reflexivity. Qed.

Lemma scan_plain c r :
  (c =? QUOTE) = false -> (c =? BACKSLASH) = false -> (c <=? 0x1f) = false ->
  scanstring (c :: r) = prepend c (scanstring r).
Proof. intros H1 H2 H3. cbn [scanstring]. rewrite H1, H2, H3. reflexivity. Qed.

Lemma scan_simple e x r :
  (e =? LETTER_u) = false -> simple_escape e = Some x ->
  scanstring (BACKSLASH :: e :: r) = prepend x (scanstring r).
Proof.
  intros H1 H2. cbn [scanstring].
  change (BACKSLASH =? QUOTE) with false. change (BACKSLASH =? BACKSLASH) with true.
  cbv iota. rewrite H1, H2. reflexivity.
Qed.

Lemma scan_u a b c d u r :
  decode_hex4 a b c d = Some u ->
  (is_high_surrogate u = true -> no_low_ahead r) ->
  scanstring (BACKSLASH :: LETTER_u :: a :: b :: c :: d :: r) = prepend u (scanstring r).
Proof.
  intros Hd Hno. cbn [scanstring].
  change (BACKSLASH =? QUOTE) with false. change (BACKSLASH =? BACKSLASH) with true.
  change (LETTER_u =? LETTER_u) with true. cbv iota. rewrite Hd.
  destruct (is_high_surrogate u) eqn:Hu; [|reflexivity].
  destruct r as [|b1 [|u1 [|a2 [|b2 [|c2 [|d2 s4]]]]]]; try reflexivity.
  destruct ((b1 =? BACKSLASH) && (u1 =? LETTER_u)) eqn:E; [|reflexivity].
  apply andb_true_iff in E as [E1 E2].
  apply N.eqb_eq in E1, E2. subst b1 u1.
  destruct (Hno eq_refl _ _ _ _ _ eq_refl) as (u2 & -> & ->). reflexivity.
Qed.

Lemma scan_pair a b c d u a2 b2 c2 d2 u2 r :
  decode_hex4 a b c d = Some u -> is_high_surrogate u = true ->
  decode_hex4 a2 b2 c2 d2 = Some u2 -> is_low_surrogate u2 = true ->
  scanstring (BACKSLASH :: LETTER_u :: a :: b :: c :: d ::
              BACKSLASH :: LETTER_u :: a2 :: b2 :: c2 :: d2 :: r)
  = prepend (join_surrogates u u2) (scanstring r).
Proof.
  intros Hd Hu Hd2 Hu2. cbn [scanstring].
  change (BACKSLASH =? QUOTE) with false. change (BACKSLASH =? BACKSLASH) with true.
  change (LETTER_u =? LETTER_u) with true. cbv iota.
  rewrite Hd, Hu. cbn [andb]. rewrite Hd2, Hu2. reflexivity.
Qed.

(** ** The shapes of an escaped character *)

Lemma escape_char_cases c :
  (exists e, escape_char c = [BACKSLASH; e] /\ (e =? LETTER_u) = false /\
             simple_escape e = Some c)
  \/ (escape_char c = [c] /\ (c =? QUOTE) = false /\ (c =? BACKSLASH) = false /\
      (c <=? 0x1f) = false)
  \/ (escape_char c = u_escape c /\ c < 0x10000)
  \/ (escape_char c = u_escape (high_of c) ++ u_escape (low_of c) /\ 0x10000 <= c).
Proof.
  unfold escape_char.
  destruct (c =? QUOTE) eqn:E1.
  { apply N.eqb_eq in E1; subst. left. exists QUOTE. repeat split. }
  destruct (c =? BACKSLASH) eqn:E2.
  { apply N.eqb_eq in E2; subst. left. exists BACKSLASH. repeat split. }
  destruct (c =? 10) eqn:E3.
  { apply N.eqb_eq in E3; subst. left. exists 110. repeat split. }
  destruct (c =? 13) eqn:E4.
  { apply N.eqb_eq in E4; subst. left. exists 114. repeat split. }
  destruct (c =? 9) eqn:E5.
  { apply N.eqb_eq in E5; subst. left. exists 116. repeat split. }
  destruct (c =? 8) eqn:E6.
  { apply N.eqb_eq in E6; subst. left. exists 98. repeat split. }
  destruct (c =? 12) eqn:E7.
  { apply N.eqb_eq in E7; subst. left. exists 102. repeat split. }
  destruct ((0x20 <=? c) && (c <=? 0x7e)) eqn:E8.
  { right; left. apply andb_true_iff in E8 as [E8 _]. apply N.leb_le in E8.
    repeat split. apply N.leb_gt. lia. }
  destruct (c <? 0x10000) eqn:E9.
  { right; right; left. apply N.ltb_lt in E9. split; [reflexivity|exact E9]. }
  right; right; right. apply N.ltb_ge in E9. split; [reflexivity|exact E9].
Qed.

Lemma no_low_ahead_quote r : no_low_ahead (QUOTE :: r).
Proof. intros a b c d t H. discriminate H. Qed.

Lemma no_low_ahead_escape c t :
  code_point c -> is_low_surrogate c = false -> no_low_ahead (escape_char c ++ t).
Proof.
  intros Hc Hlow a b x d t' H.
  destruct (escape_char_cases c) as [(e & E & He & _)|[(E & _ & Hb & _)|[(E & Hlt)|(E & Hge)]]];
    rewrite E in H.
  - injection H as H _. subst e. discriminate He.
  - injection H as H _. subst c. discriminate Hb.
  - unfold u_escape, hex4 in H. cbn [Datatypes.app] in H.
    injection H as <- <- <- <- _.
    exists c. split; [apply decode_hex4_hex4; exact Hlt|exact Hlow].
  - destruct (surrogates_of c Hge Hc) as (Hh & _ & _ & Hnl & _).
    unfold u_escape, hex4 in H. cbn [Datatypes.app] in H.
    injection H as <- <- <- <- _.
    exists (high_of c). split; [apply decode_hex4_hex4; exact Hh|exact Hnl].
Qed.

(** ** Decoding what the encoder wrote *)

Lemma scanstring_escape s r :
  plain_str s -> scanstring (escape s ++ QUOTE :: r) = Some (s, r).
Proof.
  intros [Hv Hp]. induction s as [|c s IH].
  - apply scan_quote.
  - apply Forall_cons in Hv as [Hc Hv].
    cbn [no_split_pair] in Hp. apply andb_true_iff in Hp as [Hfirst Hp].
    specialize (IH Hv Hp).
    assert (Hno : is_high_surrogate c = true -> no_low_ahead (escape s ++ QUOTE :: r)).
    { intros Hhigh. destruct s as [|c2 s].
      - apply no_low_ahead_quote.
      - cbn [escape]. rewrite <- app_assoc.
        apply Forall_cons in Hv as [Hc2 _].
        apply no_low_ahead_escape; [exact Hc2|].
        rewrite Hhigh in Hfirst. cbn [andb] in Hfirst.
        apply negb_true_iff in Hfirst. exact Hfirst. }
    cbn [escape]. rewrite <- app_assoc.
    destruct (escape_char_cases c)
      as [(e & -> & He & Hs)|[(-> & Hq & Hb & Hctl)|[(-> & Hlt)|(-> & Hge)]]].
    + cbn [Datatypes.app]. rewrite (scan_simple e c _ He Hs), IH. reflexivity.
    + cbn [Datatypes.app]. rewrite (scan_plain c _ Hq Hb Hctl), IH. reflexivity.
    + unfold u_escape, hex4. cbn [Datatypes.app].
      rewrite (scan_u _ _ _ _ c _ (decode_hex4_hex4 c Hlt) Hno), IH. reflexivity.
    + destruct (surrogates_of c Hge Hc) as (Hh & Hl & Hhigh & _ & Hlow & Hjoin).
      unfold u_escape, hex4. cbn [Datatypes.app].
      rewrite (scan_pair _ _ _ _ (high_of c) _ _ _ _ (low_of c) _
                 (decode_hex4_hex4 _ Hh) Hhigh (decode_hex4_hex4 _ Hl) Hlow).
      rewrite IH, Hjoin. reflexivity.
Qed.

(** ** Decoding an object the encoder wrote *)

Lemma lit_colon : lit ": " = [58; 32].
Proof. reflexivity. Qed.

Lemma lit_comma : lit ", " = [44; 32].
Proof. reflexivity. Qed.

Lemma lit_braces : lit "{" = [123] /\ lit "}" = [125].
Proof. split; reflexivity. Qed.

Lemma member_text k v t :
  encode_str k ++ lit ": " ++ encode_str v ++ t
  = QUOTE :: escape k ++ QUOTE :: 58 :: 32 :: QUOTE :: escape v ++ QUOTE :: t.
Proof.
  unfold encode_str. rewrite lit_colon. cbn [Datatypes.app].
  rewrite <- !app_assoc. reflexivity.
Qed.

Lemma dumps_items_cons k v d :
  dumps_items ((k, v) :: d)
  = encode_str k ++ lit ": " ++ encode_str v ++
    match d with
    | [] => []
    | _ :: _ => lit ", " ++ dumps_items d
    end.
Proof.
  destruct d as [|kv d].
  - cbn [dumps_items]. rewrite app_nil_r. reflexivity.
  - reflexivity.
Qed.

Lemma dumps_items_head k v d t :
  exists x, dumps_items ((k, v) :: d) ++ t = QUOTE :: x.
Proof.
  rewrite dumps_items_cons. unfold encode_str. cbn [Datatypes.app]. eauto.
Qed.

Lemma parse_member fuel k v t acc :
  plain_str k -> plain_str v ->
  parse_members (S fuel) (encode_str k ++ lit ": " ++ encode_str v ++ t) acc
  = match skip_ws t with
    | c :: s6 =>
        if c =? 125 then Some (<[k := v]> acc, s6)
        else if c =? 44 then parse_members fuel (skip_ws s6) (<[k := v]> acc)
        else None
    | [] => None
    end.
Proof.
  intros Hk Hv. rewrite member_text.
  cbn [parse_members expect]. change (QUOTE =? QUOTE) with true.
  cbn [mbind option_bind]. rewrite (scanstring_escape k _ Hk).
  cbn [mbind option_bind skip_ws]. change (is_ws 58) with false.
  cbn [expect]. change (58 =? 58) with true.
  cbn [mbind option_bind skip_ws]. change (is_ws 32) with true.
  cbn [skip_ws]. change (is_ws QUOTE) with false.
  cbn [expect]. change (QUOTE =? QUOTE) with true.
  cbn [mbind option_bind]. rewrite (scanstring_escape v _ Hv).
  reflexivity.
Qed.

Lemma length_dumps_items d : (length d <= length (dumps_items d))%nat.
Proof.
  induction d as [|[k v] d IH]; [reflexivity|].
  rewrite dumps_items_cons. unfold encode_str.
  destruct d as [|kv d]; cbn [Datatypes.app length] in *;
    repeat (rewrite length_app; cbn [length]); lia.
Qed.

Lemma parse_members_dumps d :
  forall fuel acc r,
    Forall (fun kv => plain_str kv.1 /\ plain_str kv.2) d ->
    d <> [] -> (length d <= fuel)%nat ->
    parse_members fuel (dumps_items d ++ 125 :: r) acc
    = Some (foldl (fun acc kv => <[kv.1 := kv.2]> acc) acc d, r).
Proof.
  induction d as [|[k v] d IH]; intros fuel acc r Hd Hne Hfuel; [congruence|].
  apply Forall_cons in Hd as [[Hk Hv] Hd]. cbn [fst snd] in Hk, Hv.
  destruct fuel as [|fuel]; [cbn [length] in Hfuel; lia|].
  rewrite dumps_items_cons, <- !app_assoc, (parse_member _ _ _ _ _ Hk Hv).
  destruct d as [|kv d].
  - reflexivity.
  - rewrite <- app_assoc, lit_comma.
    cbn [Datatypes.app skip_ws].
    change (is_ws 44) with false. cbv iota.
    change (44 =? 125) with false. change (44 =? 44) with true. cbv iota.
    cbn [skip_ws]. change (is_ws 32) with true. cbv iota.
    destruct kv as [k2 v2].
    destruct (dumps_items_head k2 v2 d (125 :: r)) as [x Hx].
    rewrite Hx. cbn [skip_ws]. change (is_ws QUOTE) with false. cbv iota.
    rewrite <- Hx. rewrite IH; [reflexivity|exact Hd|discriminate|].
    cbn [length] in *. lia.
Qed.

(** [json.loads(json.dumps(d))] is [dict(d)] when the strings of [d] are
    ones the encoder and the decoder agree on. *)
Lemma json_loads_dumps d :
  Forall (fun kv => plain_str kv.1 /\ plain_str kv.2) d ->
  json_loads (json_dumps d) = Some (dict_of d).
Proof.
  intros Hd. unfold json_dumps, dict_of.
  rewrite (proj1 lit_braces), (proj2 lit_braces).
  cbn [Datatypes.app json_loads].
  change (123 =? 65279) with false. cbv iota.
  cbn [skip_ws]. change (is_ws 123) with false. cbv iota.
  cbn [expect]. change (123 =? 123) with true. cbn [mbind option_bind].
  unfold parse_object.
  destruct d as [|[k v] d].
  - reflexivity.
  - destruct (dumps_items_head k v d [125]) as [x Hx].
    rewrite Hx. cbn [skip_ws]. change (is_ws QUOTE) with false. cbv iota.
    change (QUOTE =? 125) with false. cbv iota.
    rewrite <- Hx.
    rewrite parse_members_dumps; [reflexivity|exact Hd|discriminate|].
    rewrite length_app. pose proof (length_dumps_items ((k, v) :: d)). lia.
Qed.

(** ** The fuel of the member loop is never the reason of a failure *)

Lemma prepend_Some c o v r :
  prepend c o = Some (v, r) -> exists v', o = Some (v', r).
Proof.
  destruct o as [[v' r']|]; [|discriminate].
  cbn [prepend]. intros H. injection H as _ <-. eauto.
Qed.

Lemma scanstring_shorter n :
  forall s v r,
    (length s <= n)%nat -> scanstring s = Some (v, r) -> (length r < length s)%nat.
Proof.
  induction n as [|n IH]; intros s v r Hn H.
  - destruct s; [discriminate H|cbn [length] in Hn; lia].
  - destruct s as [|c s1]; [discriminate H|].
    cbn [scanstring] in H. cbn [length] in *.
    repeat match type of H with
    | Some _ = Some _ => injection H as _ <-; lia
    | None = Some _ => discriminate H
    | prepend _ (scanstring ?t) = Some _ =>
        apply prepend_Some in H as [v' H]; apply IH in H; cbn [length] in *; lia
    | context [if ?b then _ else _] => destruct b
    | context [match ?x with _ => _ end] => destruct x; cbn [length] in *
    end.
Qed.

Lemma skip_ws_length s : (length (skip_ws s) <= length s)%nat.
Proof.
  induction s as [|c s IH]; [reflexivity|].
  cbn [skip_ws]. destruct (is_ws c); cbn [length]; lia.
Qed.

Lemma expect_shorter c s r : expect c s = Some r -> (length r < length s)%nat.
Proof.
  destruct s as [|c' s]; [discriminate|]. cbn [expect].
  destruct (c' =? c); [|discriminate]. intros H. injection H as <-. cbn [length]. lia.
Qed.

Lemma parse_members_fuel n :
  forall m s acc,
    (length s <= n)%nat -> (length s <= m)%nat ->
    parse_members n s acc = parse_members m s acc.
Proof.
  induction n as [|n IH]; intros m s acc Hn Hm.
  - destruct s; [|cbn [length] in Hn; lia]. destruct m; reflexivity.
  - destruct m as [|m].
    { destruct s; [reflexivity|cbn [length] in Hm; lia]. }
    cbn [parse_members].
    destruct (expect QUOTE s) as [s1|] eqn:E1; [|reflexivity].
    apply expect_shorter in E1. cbn [mbind option_bind].
    destruct (scanstring s1) as [[key s2]|] eqn:E2; [|reflexivity].
    apply (scanstring_shorter _ _ _ _ (le_n _)) in E2. cbn [mbind option_bind].
    pose proof (skip_ws_length s2) as L2.
    destruct (expect 58 (skip_ws s2)) as [s3|] eqn:E3; [|reflexivity].
    apply expect_shorter in E3. cbn [mbind option_bind].
    pose proof (skip_ws_length s3) as L3.
    destruct (expect QUOTE (skip_ws s3)) as [s4|] eqn:E4; [|reflexivity].
    apply expect_shorter in E4. cbn [mbind option_bind].
    destruct (scanstring s4) as [[val s5]|] eqn:E5; [|reflexivity].
    apply (scanstring_shorter _ _ _ _ (le_n _)) in E5. cbn [mbind option_bind].
    pose proof (skip_ws_length s5) as L5.
    destruct (skip_ws s5) as [|c s6]; [reflexivity|].
    destruct (c =? 125); [reflexivity|]. destruct (c =? 44); [|reflexivity].
    pose proof (skip_ws_length s6) as L6. cbn [length] in *.
    apply IH; lia.
Qed.

(** ** Paths *)

Lemma split_sep_simple s : forall cur,
  Forall (fun c => c <> SEP) s -> split_sep s cur = [cur ++ s].
Proof.
  induction s as [|c s IH]; intros cur Hs.
  - cbn [split_sep]. rewrite app_nil_r. reflexivity.
  - apply Forall_cons in Hs as [Hc Hs]. cbn [split_sep].
    apply N.eqb_neq in Hc. rewrite Hc, (IH _ Hs), <- app_assoc. reflexivity.
Qed.

Lemma parse_parts_simple s :
  Forall (fun c => c <> SEP) s -> is_empty s = false -> is_dot s = false ->
  parse_parts s = [s].
Proof.
  intros Hs He Hd. unfold parse_parts.
  rewrite (split_sep_simple s [] Hs). cbn [Datatypes.app List.filter].
  rewrite He, Hd. reflexivity.
Qed.

Lemma truediv_simple p s :
  Forall (fun c => c <> SEP) s -> is_empty s = false -> is_dot s = false ->
  p // s = mkPath (root p) (tail p ++ [s]).
Proof.
  intros Hs He Hd. unfold truediv.
  destruct s as [|c s]; [discriminate He|].
  pose proof (parse_parts_simple _ Hs He Hd) as Hp.
  apply Forall_cons in Hs as [Hc _]. apply N.eqb_neq in Hc.
  rewrite Hc, Hp. reflexivity.
Qed.

Lemma parent_truediv p s :
  Forall (fun c => c <> SEP) s -> is_empty s = false -> is_dot s = false ->
  parent (p // s) = p.
Proof.
  intros Hs He Hd. rewrite (truediv_simple p s Hs He Hd).
  unfold parent. cbn [root tail]. rewrite removelast_last.
  destruct p; reflexivity.
Qed.

Lemma digits_no_sep d : Forall (fun c => c <> SEP) (digits d).
Proof. induction d; cbn [digits]; constructor; (discriminate || assumption). Qed.

Lemma str_of_int_no_sep z : Forall (fun c => c <> SEP) (str_of_int z).
Proof.
  destruct z; cbn [str_of_int].
  - repeat constructor. discriminate.
  - apply digits_no_sep.
  - constructor; [discriminate|apply digits_no_sep].
Qed.

Lemma filename_simple ms :
  Forall (fun c => c <> SEP) (filename ms) /\
  is_empty (filename ms) = false /\ is_dot (filename ms) = false.
Proof.
  unfold filename. split; [|split].
  - apply Forall_app; split; [|apply Forall_app; split].
    + repeat constructor; discriminate.
    + apply str_of_int_no_sep.
    + repeat constructor; discriminate.
  - reflexivity.
  - reflexivity.
Qed.

(** The file is created directly inside the messages directory. *)
Lemma parent_ipc_file g ms : parent (ipc_file g ms) = ipc_dir g.
Proof.
  destruct (filename_simple ms) as (H1 & H2 & H3).
  unfold ipc_file. apply parent_truediv; assumption.
Qed.

Lemma ipc_dir_parts g :
  ipc_dir g
  = mkPath (root (_DATA_DIR g))
      (tail (_DATA_DIR g) ++ [lit "ipc"; lit "main"; lit "messages"]).
Proof.
  unfold ipc_dir.
  rewrite !truediv_simple; try reflexivity; try (repeat constructor; discriminate).
  cbn [root tail]. rewrite <- !app_assoc. reflexivity.
Qed.

Lemma ipc_file_parts g ms :
  ipc_file g ms
  = mkPath (root (_DATA_DIR g))
      (tail (_DATA_DIR g) ++ [lit "ipc"; lit "main"; lit "messages"; filename ms]).
Proof.
  destruct (filename_simple ms) as (H1 & H2 & H3).
  unfold ipc_file. rewrite (truediv_simple _ _ H1 H2 H3), ipc_dir_parts.
  cbn [root tail]. rewrite <- app_assoc. reflexivity.
Qed.

(** ** The handlers, step by step *)

Lemma send_unfold ms req w :
  send ms req w =
  let g := globals w in
  match _GROUPS g !! group_name req g with
  | None => (inl (HTTPException 404 (not_found_detail (group_name req g))), w)
  | Some jid =>
      if fs_exists (ipc_dir g) (fs w) then
        match fs_write_text (ipc_file g ms) (json_dumps (payload jid (message req))) (fs w) with
        | inr t => (inr (OkFile (path_str (ipc_file g ms))), mkWorld g t)
        | inl e => (inl e, w)
        end
      else (inl (HTTPException 503 (lit "IPC messages directory does not exist")), w)
  end.
Proof.
  unfold send, mbind, M_bind, bind, global, exists_, write_text, raise, mret, M_ret, ret, id.
  cbv zeta.
  destruct (_GROUPS (globals w) !! group_name req (globals w)) as [jid|]; [|reflexivity].
  destruct (fs_exists (ipc_dir (globals w)) (fs w)); [|reflexivity].
  cbn [negb].
  destruct (fs_write_text _ _ (fs w)); reflexivity.
Qed.

Lemma fs_exists_Some p t x : t !! path_str p = Some x -> fs_exists p t = true.
Proof. intros H. unfold fs_exists. apply bool_decide_eq_true. eauto. Qed.


Lemma fs_write_text_ok p data t :
  t !! path_str (parent p) = Some Dir -> t !! path_str p <> Some Dir ->
  fs_write_text p data t = inr (<[path_str p := File data]> t).
Proof.
  intros Hd Hp. unfold fs_write_text. rewrite Hd.
  destruct (t !! path_str p) as [[|text]|]; [congruence|reflexivity|reflexivity].
Qed.

Lemma py_or_nonempty g d : g <> [] -> py_or (Some g) d = g.
Proof. destruct g; [congruence|reflexivity]. Qed.

Lemma py_or_default d : py_or (Some d) d = d.
Proof. destruct d; reflexivity. Qed.

Lemma validate_fields body msg :
  body !! lit "message" = Some (JString msg) ->
  validate body =
  match body !! lit "group" with
  | None | Some JNull => Some (mkSendRequest msg None)
  | Some (JString g) => Some (mkSendRequest msg (Some g))
  | Some _ => None
  end.
Proof. intros H. unfold validate. rewrite H. reflexivity. Qed.

(** ** Strings the decoder returns unchanged *)

Lemma valid_strb_spec s : valid_strb s = true -> valid_str s.
Proof.
  unfold valid_strb, valid_str. intros H. apply Forall_forall. intros c Hc.
  rewrite forallb_forall in H. apply N.ltb_lt, H. apply list_elem_of_In, Hc.
Qed.

Lemma plain_strb_spec s : plain_strb s = true -> plain_str s.
Proof.
  unfold plain_strb. intros H. apply andb_true_iff in H as [H1 H2].
  split; [apply valid_strb_spec, H1|exact H2].
Qed.

Lemma dict_of_payload jid text : dict_of (payload jid text) = ipc_message jid text.
Proof. reflexivity. Qed.

(** Reading back the payload of a message. *)
Lemma json_loads_payload jid text :
  plain_str jid -> plain_str text ->
  json_loads (json_dumps (payload jid text)) = Some (ipc_message jid text).
Proof.
  intros Hj Ht. rewrite <- dict_of_payload. apply json_loads_dumps.
  unfold payload. repeat constructor; cbn [fst snd];
    try (apply valid_strb_spec; reflexivity); try reflexivity;
    try apply Hj; try apply Ht.
Qed.

(** ** Globals are only read *)

Lemma preserves_ret {A} (a : A) : preserves_globals (mret a).
Proof. intros w. reflexivity. Qed.

Lemma preserves_raise {A} e : preserves_globals (raise (A := A) e).
Proof. intros w. reflexivity. Qed.

Lemma preserves_global {A} (f : Globals -> A) : preserves_globals (global f).
Proof. intros w. reflexivity. Qed.

Lemma preserves_exists p : preserves_globals (exists_ p).
Proof. intros w. reflexivity. Qed.

Lemma preserves_write_text p data : preserves_globals (write_text p data).
Proof.
  intros w. unfold write_text. destruct (fs_write_text p data (fs w)); reflexivity.
Qed.

Lemma preserves_bind {A B} (m : M A) (k : A -> M B) :
  preserves_globals m -> (forall a, preserves_globals (k a)) ->
  preserves_globals (m ≫= k).
Proof.
  intros Hm Hk w. unfold mbind, M_bind, bind.
  specialize (Hm w). destruct (m w) as [[e|a] w']; cbn [snd] in *.
  - exact Hm.
  - rewrite (Hk a w'). exact Hm.
Qed.

Create HintDb globals.
#[local] Hint Resolve preserves_ret preserves_raise preserves_global
  preserves_exists preserves_write_text : globals.

Lemma preserves_health : preserves_globals health.
Proof. unfold health. auto with globals. Qed.

Lemma preserves_send ms req : preserves_globals (send ms req).
Proof.
  unfold send.
  apply preserves_bind; [auto with globals|]. intros g. cbv zeta.
  destruct (_GROUPS g !! group_name req g); [|auto with globals].
  apply preserves_bind; [auto with globals|]. intros present.
  destruct present; cbn [negb]; [|auto with globals].
  apply preserves_bind; auto with globals.
Qed.

Lemma preserves_respond (m : M Reply) w :
  preserves_globals m -> globals (respond m w).2 = globals w.
Proof.
  intros Hm. unfold respond. specialize (Hm w).
  destruct (m w) as [[[s d| |]|r] w']; exact Hm.
Qed.

(** ** Names of message files *)

Lemma join_sep_snoc l x :
  l <> [] -> join_sep (l ++ [x]) = join_sep l ++ SEP :: x.
Proof.
  induction l as [|a l IH]; [congruence|]. intros _.
  destruct l as [|b l].
  - reflexivity.
  - change (join_sep ((a :: b :: l) ++ [x]))
      with (a ++ SEP :: join_sep ((b :: l) ++ [x])).
    rewrite IH by discriminate.
    change (join_sep (a :: b :: l)) with (a ++ SEP :: join_sep (b :: l)).
    rewrite <- app_assoc. reflexivity.
Qed.

Lemma path_str_parts r t : t <> [] -> path_str (mkPath r t) = r ++ join_sep t.
Proof.
  intros Ht. unfold path_str. cbn [root tail].
  destruct r; [|reflexivity]. destruct t; [congruence|reflexivity].
Qed.

Lemma path_str_truediv p x :
  tail p <> [] -> path_str (mkPath (root p) (tail p ++ [x])) = path_str p ++ SEP :: x.
Proof.
  intros Ht. rewrite path_str_parts by (destruct (tail p); discriminate).
  rewrite (join_sep_snoc _ _ Ht), app_assoc.
  destruct p as [r t]. cbn [root tail] in *. rewrite (path_str_parts r t Ht).
  reflexivity.
Qed.

Lemma ipc_file_str g ms :
  path_str (ipc_file g ms) = path_str (ipc_dir g) ++ SEP :: filename ms.
Proof.
  destruct (filename_simple ms) as (H1 & H2 & H3).
  unfold ipc_file. rewrite (truediv_simple _ _ H1 H2 H3).
  apply path_str_truediv. rewrite ipc_dir_parts. cbn [tail].
  destruct (tail (_DATA_DIR g)); discriminate.
Qed.

Lemma digits_inj d : forall d', digits d = digits d' -> d = d'.
Proof.
  induction d; intros d' H; destruct d'; cbn [digits] in H;
    try discriminate H; try reflexivity;
    injection H as H; f_equal; apply IHd; exact H.
Qed.

Lemma digits_not_minus d : Forall (fun c => c <> 45) (digits d).
Proof. induction d; cbn [digits]; constructor; (discriminate || assumption). Qed.

Lemma str_of_int_inj z z' : str_of_int z = str_of_int z' -> z = z'.
Proof.
  assert (Hzero : forall p, [48] <> digits (Pos.to_uint p)).
  { intros p H. change [48] with (digits (Decimal.D0 Decimal.Nil)) in H.
    apply digits_inj in H. symmetry in H.
    exact (DecimalPos.Unsigned.to_uint_nonzero p H). }
  assert (Hminus : forall p q, digits (Pos.to_uint p) <> 45 :: digits (Pos.to_uint q)).
  { intros p q H. pose proof (digits_not_minus (Pos.to_uint p)) as F.
    rewrite H in F. apply Forall_cons in F as [F _]. congruence. }
  destruct z as [|p|p], z' as [|q|q]; cbn [str_of_int]; intros H;
    try reflexivity; try discriminate H.
  - destruct (Hzero _ H).
  - destruct (Hzero _ (eq_sym H)).
  - apply digits_inj, DecimalPos.Unsigned.to_uint_inj in H. congruence.
  - destruct (Hminus _ _ H).
  - destruct (Hminus _ _ (eq_sym H)).
  - injection H as H.
    apply digits_inj, DecimalPos.Unsigned.to_uint_inj in H. congruence.
Qed.

Lemma filename_inj ms ms' : filename ms = filename ms' -> ms = ms'.
Proof.
  unfold filename. intros H. apply app_inv_head, app_inv_tail in H.
  apply str_of_int_inj, H.
Qed.

Lemma ipc_file_inj g ms ms' :
  path_str (ipc_file g ms) = path_str (ipc_file g ms') -> ms = ms'.
Proof.
  rewrite !ipc_file_str. generalize (filename_inj ms ms').
  generalize (filename ms), (filename ms'). intros a b Hab H.
  apply app_inv_head in H. injection H as H. exact (Hab H).
Qed.

(** The name of the message file is never the name of the directory. *)
Lemma ipc_file_not_dir g ms : path_str (ipc_file g ms) <> path_str (ipc_dir g).
Proof.
  rewrite ipc_file_str. intros H.
  apply (f_equal (@length N)) in H. rewrite length_app in H. cbn [length] in H. lia.
Qed.

(** ** Strings a response can carry *)

Lemma utf8_encodable_app s t :
  utf8_encodable (s ++ t) = utf8_encodable s && utf8_encodable t.
Proof. unfold utf8_encodable. apply forallb_app. Qed.

Lemma not_found_detail_encodable name :
  utf8_encodable (not_found_detail name) = utf8_encodable name.
Proof.
  unfold not_found_detail. rewrite !utf8_encodable_app.
  change (utf8_encodable (lit "Group '")) with true.
  change (utf8_encodable (lit "' not found in groups config")) with true.
  rewrite andb_true_r. reflexivity.
Qed.

Lemma digits_encodable d : utf8_encodable (digits d) = true.
Proof. induction d; cbn [digits]; [reflexivity|exact IHd..]. Qed.

Lemma filename_encodable ms : utf8_encodable (filename ms) = true.
Proof.
  unfold filename. rewrite !utf8_encodable_app.
  assert (H : utf8_encodable (str_of_int ms) = true).
  { destruct ms; cbn [str_of_int]; [reflexivity|apply digits_encodable|].
    exact (digits_encodable (Pos.to_uint p)). }
  rewrite H. reflexivity.
Qed.

Lemma ipc_file_encodable g ms :
  utf8_encodable (path_str (ipc_file g ms)) = utf8_encodable (path_str (ipc_dir g)).
Proof.
  rewrite ipc_file_str, utf8_encodable_app.
  change (utf8_encodable (SEP :: filename ms)) with (utf8_encodable (filename ms)).
  rewrite filename_encodable. apply andb_true_r.
Qed.

(** ** The outcome of a request, case by case *)

Lemma send_outcome ms req w :
  send ms req w =
  let g := globals w in
  let f := ipc_file g ms in
  match _GROUPS g !! group_name req g with
  | None => (inl (HTTPException 404 (not_found_detail (group_name req g))), w)
  | Some jid =>
      match fs w !! path_str (ipc_dir g) with
      | None =>
          (inl (HTTPException 503 (lit "IPC messages directory does not exist")), w)
      | Some (File _) => (inl OSError, w)
      | Some Dir =>
          match fs w !! path_str f with
          | Some Dir => (inl OSError, w)
          | _ =>
              (inr (OkFile (path_str f)),
               mkWorld g (<[path_str f := File (json_dumps (payload jid (message req)))]> (fs w)))
          end
      end
  end.
Proof.
  rewrite send_unfold. cbv zeta.
  destruct (_GROUPS (globals w) !! group_name req (globals w)) as [jid|]; [|reflexivity].
  unfold fs_exists, fs_write_text. rewrite parent_ipc_file.
  destruct (fs w !! path_str (ipc_dir (globals w))) as [[|x]|] eqn:Hd.
  - rewrite bool_decide_eq_true_2 by eauto.
    destruct (fs w !! path_str (ipc_file (globals w) ms)) as [[|y]|]; reflexivity.
  - rewrite bool_decide_eq_true_2 by eauto. reflexivity.
  - rewrite bool_decide_eq_false_2 by (intros [y Hy]; discriminate Hy). reflexivity.
Qed.

Lemma respond_send ms req w :
  respond (send ms req) w =
  let g := globals w in
  let f := ipc_file g ms in
  match _GROUPS g !! group_name req g with
  | None => (json_response 404 (Detail (not_found_detail (group_name req g))), w)
  | Some jid =>
      match fs w !! path_str (ipc_dir g) with
      | None =>
          (mkResponse 503 (Detail (lit "IPC messages directory does not exist")), w)
      | Some (File _) => (mkResponse 500 InternalServerError, w)
      | Some Dir =>
          match fs w !! path_str f with
          | Some Dir => (mkResponse 500 InternalServerError, w)
          | _ =>
              (json_response 200 (Json (OkFile (path_str f))),
               mkWorld g (<[path_str f := File (json_dumps (payload jid (message req)))]> (fs w)))
          end
      end
  end.
Proof.
  unfold respond. rewrite send_outcome. cbv zeta.
  destruct (_GROUPS (globals w) !! group_name req (globals w)) as [jid|]; [|reflexivity].
  destruct (fs w !! path_str (ipc_dir (globals w))) as [[|x]|]; [|reflexivity..].
  destruct (fs w !! path_str (ipc_file (globals w) ms)) as [[|y]|]; reflexivity.
Qed.

Lemma json_response_ok code c :
  content_encodable c = true -> json_response code c = mkResponse code c.
Proof. intros H. unfold json_response. rewrite H. reflexivity. Qed.

Lemma json_response_status code c :
  status (json_response code c) = code \/ status (json_response code c) = 500.
Proof. unfold json_response. destruct (content_encodable c); auto. Qed.

Lemma not_found_response name :
  json_response 404 (Detail (not_found_detail name))
  = if utf8_encodable name then mkResponse 404 (Detail (not_found_detail name))
    else mkResponse 500 InternalServerError.
Proof.
  unfold json_response. cbn [content_encodable].
  rewrite not_found_detail_encodable. reflexivity.
Qed.

Lemma app_send ms body req w :
  validate body = Some req -> app ms (POST_send body) w = respond (send ms req) w.
Proof. intros H. unfold app. rewrite H. reflexivity. Qed.

Lemma validate_send_body msg grp :
  validate (send_body msg grp) = Some (mkSendRequest msg grp).
Proof. destruct grp; reflexivity. Qed.

Lemma send_ok ms req w jid :
  _GROUPS (globals w) !! group_name req (globals w) = Some jid ->
  fs w !! path_str (ipc_dir (globals w)) = Some Dir ->
  fs w !! path_str (ipc_file (globals w) ms) <> Some Dir ->
  send ms req w
  = (inr (OkFile (path_str (ipc_file (globals w) ms))),
     mkWorld (globals w)
       (<[path_str (ipc_file (globals w) ms) :=
            File (json_dumps (payload jid (message req)))]> (fs w))).
Proof.
  intros Hj Hd Hf. rewrite send_outcome. cbv zeta. rewrite Hj, Hd.
  destruct (fs w !! path_str (ipc_file (globals w) ms)) as [[|y]|];
    [congruence|reflexivity|reflexivity].
Qed.

Lemma app_send_ok ms body req w jid :
  validate body = Some req ->
  _GROUPS (globals w) !! group_name req (globals w) = Some jid ->
  fs w !! path_str (ipc_dir (globals w)) = Some Dir ->
  fs w !! path_str (ipc_file (globals w) ms) <> Some Dir ->
  app ms (POST_send body) w
  = (json_response 200 (Json (OkFile (path_str (ipc_file (globals w) ms)))),
     mkWorld (globals w)
       (<[path_str (ipc_file (globals w) ms) :=
            File (json_dumps (payload jid (message req)))]> (fs w))).
Proof.
  intros Hv Hj Hd Hf. rewrite (app_send _ _ _ _ Hv). unfold respond.
  rewrite (send_ok _ _ _ _ Hj Hd Hf). reflexivity.
Qed.

Lemma ok_response g ms :
  utf8_encodable (path_str (ipc_dir g)) = true ->
  json_response 200 (Json (OkFile (path_str (ipc_file g ms))))
  = mkResponse 200 (Json (OkFile (path_str (ipc_file g ms)))).
Proof.
  intros H. apply json_response_ok. cbn [content_encodable].
  rewrite ipc_file_encodable. exact H.
Qed.

Lemma send_ok_inv ms req w f :
  (send ms req w).1 = inr (OkFile f) ->
  exists jid,
    _GROUPS (globals w) !! group_name req (globals w) = Some jid /\
    f = path_str (ipc_file (globals w) ms) /\
    fs (send ms req w).2 !! f = Some (File (json_dumps (payload jid (message req)))).
Proof.
  rewrite send_outcome. cbv zeta.
  destruct (_GROUPS (globals w) !! group_name req (globals w)) as [jid|];
    [|discriminate].
  destruct (fs w !! path_str (ipc_dir (globals w))) as [[|?]|]; try discriminate.
  destruct (fs w !! path_str (ipc_file (globals w) ms)) as [[|?]|];
    try discriminate; cbn [fst snd fs]; intros H; injection H as <-;
    exists jid; repeat split; apply lookup_insert_eq.
Qed.

Lemma send_looks_up ms req w : looks_up ms req w (group_name req (globals w)).
Proof. unfold looks_up. apply send_outcome. Qed.

(** ** The input a failed validation reports back *)


Lemma body_renderable_insert body k v :
  utf8_encodable k = true -> renderable v = true ->
  body_renderable (<[k := v]> body) = body_renderable (delete k body).
Proof.
  intros Hk Hv. unfold body_renderable. apply bool_decide_ext.
  rewrite <- (insert_delete_eq body k v) at 1.
  rewrite map_Forall_insert by apply lookup_delete_eq. tauto.
Qed.

(** A group field that is valid does not change what is reported back. *)
Lemma errors_renderable_group body v :
  (v = JNull \/ exists s, v = JString s /\ utf8_encodable s = true) ->
  errors_renderable (<[lit "group" := v]> body)
  = errors_renderable (delete (lit "group") body).
Proof.
  intros Hv. unfold errors_renderable.
  rewrite lookup_insert_ne by discriminate.
  rewrite lookup_delete_ne by discriminate.
  rewrite lookup_insert_eq, lookup_delete_eq.
  assert (E : body_renderable (<[lit "group" := v]> body)
              = body_renderable (delete (lit "group") body)).
  { apply body_renderable_insert; [reflexivity|].
    destruct Hv as [->|(s & -> & Hs)]; [reflexivity|exact Hs]. }
  rewrite E. f_equal.
  destruct Hv as [->|(s & -> & _)]; reflexivity.
Qed.

(** ** Decoding a flat object in any layout *)

Lemma high_not_low u : is_high_surrogate u = true -> is_low_surrogate u = false.
Proof.
  unfold is_high_surrogate, is_low_surrogate. intros H.
  apply andb_true_iff in H as [_ H]. apply N.leb_le in H.
  apply andb_false_iff. left. apply N.leb_gt. lia.
Qed.

Lemma no_low_ahead_tokens a b c d u rest s r :
  decode_hex4 a b c d = Some u -> is_high_surrogate u = true ->
  splits_pair (U4 a b c d) rest = false ->
  literal_chars rest = Some s ->
  no_low_ahead (flat_map token_text rest ++ QUOTE :: r).
Proof.
  intros Hu Hh Hs Hr. destruct rest as [|t rest]; [apply no_low_ahead_quote|].
  cbn [literal_chars] in Hr.
  destruct (splits_pair t rest); [discriminate Hr|].
  destruct (token_char t) as [x|] eqn:Hx; [|discriminate Hr].
  intros a2 b2 c2 d2 t' E. cbn [flat_map] in E. rewrite <- app_assoc in E.
  destruct t as [y|e|a3 b3 c3 d3|a3 b3 c3 d3 a4 b4 c4 d4];
    cbn [token_text Datatypes.app] in E.
  - injection E as -> _. discriminate Hx.
  - injection E as -> _. discriminate Hx.
  - injection E as -> -> -> -> _. cbn [token_char] in Hx.
    exists x. split; [exact Hx|]. cbn [splits_pair] in Hs.
    rewrite Hu, Hx, Hh in Hs. exact Hs.
  - injection E as -> -> -> -> _. cbn [token_char] in Hx.
    destruct (decode_hex4 a2 b2 c2 d2) as [u2|]; [|discriminate Hx].
    destruct (decode_hex4 a4 b4 c4 d4) as [u4|]; [|discriminate Hx].
    destruct (is_high_surrogate u2) eqn:H2; [|discriminate Hx].
    exists u2. split; [reflexivity|apply high_not_low, H2].
Qed.

Lemma scan_tokens ts :
  forall s r,
    literal_chars ts = Some s ->
    scanstring (flat_map token_text ts ++ QUOTE :: r) = Some (s, r).
Proof.
  induction ts as [|t rest IH]; intros s r H.
  - injection H as <-. apply scan_quote.
  - cbn [literal_chars] in H.
    destruct (splits_pair t rest) eqn:Hs; [discriminate H|].
    destruct (token_char t) as [x|] eqn:Hx; [|discriminate H].
    destruct (literal_chars rest) as [s'|] eqn:Hr; [|discriminate H].
    injection H as <-. specialize (IH s' r eq_refl).
    cbn [flat_map]. rewrite <- app_assoc.
    destruct t as [y|e|a b c d|a b c d a' b' c' d'];
      cbn [token_text Datatypes.app token_char] in *.
    + destruct ((y =? QUOTE) || (y =? BACKSLASH) || (y <=? 0x1f)) eqn:E;
        [discriminate Hx|]. injection Hx as <-.
      apply orb_false_iff in E as [E E3]. apply orb_false_iff in E as [E1 E2].
      rewrite (scan_plain y _ E1 E2 E3), IH. reflexivity.
    + destruct (e =? LETTER_u) eqn:E; [discriminate Hx|].
      rewrite (scan_simple e x _ E Hx), IH. reflexivity.
    + rewrite (scan_u a b c d x _ Hx), IH; [reflexivity|].
      intros Hh. exact (no_low_ahead_tokens _ _ _ _ _ _ _ _ Hx Hh Hs Hr).
    + destruct (decode_hex4 a b c d) as [u|] eqn:Hu; [|discriminate Hx].
      destruct (decode_hex4 a' b' c' d') as [u'|] eqn:Hu'; [|discriminate Hx].
      destruct (is_high_surrogate u) eqn:Hh; [|discriminate Hx].
      destruct (is_low_surrogate u') eqn:Hl; [|discriminate Hx].
      injection Hx as <-.
      rewrite (scan_pair _ _ _ _ u _ _ _ _ u' _ Hu Hh Hu' Hl), IH. reflexivity.
Qed.

Lemma scan_literal ts s r :
  literal_chars ts = Some s ->
  expect QUOTE (literal_text ts ++ r) ≫= scanstring = Some (s, r).
Proof.
  intros H. unfold literal_text. cbn [Datatypes.app expect].
  change (QUOTE =? QUOTE) with true. cbn [mbind option_bind].
  rewrite <- app_assoc. apply scan_tokens, H.
Qed.

Lemma skip_ws_app w s : ws_ok w = true -> skip_ws (w ++ s) = skip_ws s.
Proof.
  induction w as [|c w IH]; [reflexivity|]. cbn [ws_ok forallb]. intros H.
  apply andb_true_iff in H as [Hc Hw]. cbn [Datatypes.app skip_ws].
  rewrite Hc. apply IH, Hw.
Qed.

Lemma skip_ws_all w : ws_ok w = true -> skip_ws w = [].
Proof. intros H. rewrite <- (app_nil_r w). rewrite (skip_ws_app _ _ H). reflexivity. Qed.

Lemma skip_ws_literal ts r : skip_ws (literal_text ts ++ r) = literal_text ts ++ r.
Proof. reflexivity. Qed.

Lemma parse_member_layout fuel m k v t acc :
  member_pair m = Some (k, v) ->
  parse_members (S fuel) (skip_ws (member_str m ++ t)) acc
  = match skip_ws t with
    | c :: s6 =>
        if c =? 125 then Some (<[k := v]> acc, s6)
        else if c =? 44 then parse_members fuel (skip_ws s6) (<[k := v]> acc)
        else None
    | [] => None
    end.
Proof.
  unfold member_pair. intros H.
  destruct (ws_ok (ws_before m) && ws_ok (ws_key m) && ws_ok (ws_colon m)
            && ws_ok (ws_val m)) eqn:W; [|discriminate H].
  apply andb_true_iff in W as [W W4]. apply andb_true_iff in W as [W W3].
  apply andb_true_iff in W as [W1 W2].
  destruct (literal_chars (m_key m)) as [k'|] eqn:Hk; [|discriminate H].
  destruct (literal_chars (m_val m)) as [v'|] eqn:Hv; [|discriminate H].
  injection H as -> ->.
  unfold member_str. rewrite <- !app_assoc, (skip_ws_app _ _ W1), skip_ws_literal.
  cbn [parse_members].
  pose proof (scan_literal _ _ (ws_key m ++ (58 :: ws_colon m ++ literal_text (m_val m)
                                               ++ ws_val m) ++ t) Hk) as Ek.
  destruct (expect QUOTE _) as [s1|]; [|discriminate Ek]. cbn [mbind option_bind] in *.
  rewrite Ek. cbn [mbind option_bind].
  rewrite (skip_ws_app _ _ W2). cbn [Datatypes.app skip_ws].
  change (is_ws 58) with false. cbv iota. cbn [expect].
  change (58 =? 58) with true. cbn [mbind option_bind].
  rewrite <- !app_assoc, (skip_ws_app _ _ W3), skip_ws_literal.
  pose proof (scan_literal _ _ (ws_val m ++ t) Hv) as Ev.
  destruct (expect QUOTE _) as [s4|]; [|discriminate Ev]. cbn [mbind option_bind] in *.
  rewrite Ev. cbn [mbind option_bind].
  rewrite (skip_ws_app _ _ W4). reflexivity.
Qed.

Lemma member_str_head m p t :
  member_pair m = Some p -> exists x, skip_ws (member_str m ++ t) = QUOTE :: x.
Proof.
  unfold member_pair. intros H.
  destruct (ws_ok (ws_before m) && ws_ok (ws_key m) && ws_ok (ws_colon m)
            && ws_ok (ws_val m)) eqn:W; [|discriminate H].
  apply andb_true_iff in W as [W _]. apply andb_true_iff in W as [W _].
  apply andb_true_iff in W as [W1 _].
  unfold member_str. rewrite <- !app_assoc, (skip_ws_app _ _ W1).
  unfold literal_text. cbn [Datatypes.app skip_ws].
  change (is_ws QUOTE) with false. cbv iota. eauto.
Qed.

Lemma members_str_cons m rest :
  members_str (m :: rest)
  = member_str m ++ match rest with [] => [] | _ :: _ => 44 :: members_str rest end.
Proof. destruct rest; [cbn [members_str]; rewrite app_nil_r|]; reflexivity. Qed.

Lemma parse_members_layout ms :
  forall fuel acc d r,
    ms <> [] -> members_pairs ms = Some d -> (length ms <= fuel)%nat ->
    parse_members fuel (skip_ws (members_str ms ++ 125 :: r)) acc
    = Some (foldl (fun acc kv => <[kv.1 := kv.2]> acc) acc d, r).
Proof.
  induction ms as [|m rest IH]; intros fuel acc d r Hne Hd Hfuel; [congruence|].
  cbn [members_pairs] in Hd.
  destruct (member_pair m) as [[k v]|] eqn:Hm; [|discriminate Hd].
  destruct (members_pairs rest) as [d'|] eqn:Hrest; [|discriminate Hd].
  injection Hd as <-.
  destruct fuel as [|fuel]; [cbn [length] in Hfuel; lia|].
  rewrite members_str_cons, <- app_assoc, (parse_member_layout _ _ _ _ _ _ Hm).
  destruct rest as [|m2 rest].
  - injection Hrest as <-. reflexivity.
  - cbn [Datatypes.app skip_ws]. change (is_ws 44) with false. cbv iota.
    change (44 =? 125) with false. change (44 =? 44) with true. cbv iota.
    rewrite (IH fuel _ d' r); [reflexivity|discriminate|reflexivity|].
    cbn [length] in *. lia.
Qed.

Lemma length_members_str ms : (length ms <= length (members_str ms))%nat.
Proof.
  induction ms as [|m rest IH]; [reflexivity|].
  rewrite members_str_cons, length_app.
  assert (1 <= length (member_str m))%nat.
  { unfold member_str, literal_text.
    repeat (rewrite length_app; cbn [length]). lia. }
  destruct rest as [|m2 rest]; cbn [length] in *; lia.
Qed.

Lemma is_ws_not_bom c : is_ws c = true -> (c =? 0xfeff) = false.
Proof.
  unfold is_ws. intros H. apply N.eqb_neq. intros ->. discriminate H.
Qed.

(** Every well-formed layout of a list of pairs is decoded to the mapping of
    those pairs. *)
Lemma json_loads_layout L d :
  layout_pairs L = Some d -> json_loads (layout_text L) = Some (dict_of d).
Proof.
  unfold layout_pairs. intros H.
  destruct (ws_ok (ws_lead L) && ws_ok (ws_open L) && ws_ok (ws_trail L)) eqn:W;
    [|discriminate H].
  apply andb_true_iff in W as [W W3]. apply andb_true_iff in W as [W1 W2].
  assert (Hskip : skip_ws (layout_text L)
                  = 123 :: ws_open L ++ members_str (l_members L) ++ 125 :: ws_trail L).
  { unfold layout_text. rewrite (skip_ws_app _ _ W1). reflexivity. }
  assert (Hbom : match layout_text L with
                 | c :: _ => (c =? 0xfeff) = false
                 | [] => False
                 end).
  { unfold layout_text. destruct (ws_lead L) as [|c w]; [reflexivity|].
    cbn [Datatypes.app]. apply is_ws_not_bom.
    cbn [ws_ok forallb] in W1. apply andb_true_iff in W1 as [W1 _]. exact W1. }
  unfold json_loads. destruct (layout_text L) as [|c0 text] eqn:Et; [destruct Hbom|].
  rewrite Hbom, Hskip. cbn [expect]. change (123 =? 123) with true.
  cbn [mbind option_bind]. unfold parse_object.
  rewrite (skip_ws_app _ _ W2).
  destruct (l_members L) as [|m rest] eqn:Em.
  - injection H as <-. cbn [members_str Datatypes.app skip_ws].
    change (is_ws 125) with false. cbv iota. change (125 =? 125) with true.
    cbv iota. cbn [mbind option_bind]. rewrite (skip_ws_all _ W3). reflexivity.
  - assert (Hm : exists p, member_pair m = Some p).
    { cbn [members_pairs] in H. destruct (member_pair m); [eauto|discriminate H]. }
    destruct Hm as [p Hp].
    destruct (member_str_head m p
                (match rest with [] => [] | _ :: _ => 44 :: members_str rest end
                 ++ 125 :: ws_trail L) Hp) as [x Hx].
    pose proof (parse_members_layout (m :: rest)
                  (length (ws_open L ++ members_str (m :: rest) ++ 125 :: ws_trail L))
                  ∅ d (ws_trail L)) as P.
    rewrite members_str_cons, <- app_assoc in P. rewrite members_str_cons, <- app_assoc.
    rewrite Hx in *. change (QUOTE =? 125) with false. cbv iota.
    rewrite P; [|discriminate|exact H|].
    + cbn [mbind option_bind]. rewrite (skip_ws_all _ W3). reflexivity.
    + pose proof (length_members_str (m :: rest)) as Hl.
      rewrite members_str_cons in Hl. rewrite !length_app in *. lia.
Qed.

(** ** The encoder's text as a layout *)

Lemma char_token_text c : token_text (char_token c) = escape_char c.
Proof.
  unfold char_token, escape_char.
  repeat match goal with
  | |- context [if ?b then _ else _] => destruct b
  end; reflexivity.
Qed.

Lemma escape_char_surrogate c : is_surrogate c = true -> escape_char c = u_escape c.
Proof.
  unfold is_surrogate. intros H. apply andb_true_iff in H as [H1 H2].
  apply N.leb_le in H1, H2. unfold escape_char.
  destruct (c =? QUOTE) eqn:E1; [apply N.eqb_eq in E1; subst c; destruct H1; reflexivity|].
  destruct (c =? BACKSLASH) eqn:E2;
    [apply N.eqb_eq in E2; subst c; destruct H1; reflexivity|].
  destruct (c =? 10) eqn:E3; [apply N.eqb_eq in E3; subst c; destruct H1; reflexivity|].
  destruct (c =? 13) eqn:E4; [apply N.eqb_eq in E4; subst c; destruct H1; reflexivity|].
  destruct (c =? 9) eqn:E5; [apply N.eqb_eq in E5; subst c; destruct H1; reflexivity|].
  destruct (c =? 8) eqn:E6; [apply N.eqb_eq in E6; subst c; destruct H1; reflexivity|].
  destruct (c =? 12) eqn:E7; [apply N.eqb_eq in E7; subst c; destruct H1; reflexivity|].
  destruct ((0x20 <=? c) && (c <=? 0x7e)) eqn:E.
  { apply andb_true_iff in E as [_ E]. apply N.leb_le in E. lia. }
  destruct (c <? 0x10000) eqn:E9; [reflexivity|]. apply N.ltb_ge in E9. lia.
Qed.

Lemma high_is_surrogate c : is_high_surrogate c = true -> is_surrogate c = true.
Proof.
  unfold is_high_surrogate, is_surrogate. intros H.
  apply andb_true_iff in H as [H1 H2]. apply N.leb_le in H1, H2.
  apply andb_true_iff. split; apply N.leb_le; lia.
Qed.

Lemma low_is_surrogate c : is_low_surrogate c = true -> is_surrogate c = true.
Proof.
  unfold is_low_surrogate, is_surrogate. intros H.
  apply andb_true_iff in H as [H1 H2]. apply N.leb_le in H1, H2.
  apply andb_true_iff. split; apply N.leb_le; lia.
Qed.

Lemma surrogate_small c : is_surrogate c = true -> c < 0x10000.
Proof.
  unfold is_surrogate. intros H. apply andb_true_iff in H as [_ H].
  apply N.leb_le in H. lia.
Qed.

Lemma pair_token_text c c2 :
  is_high_surrogate c = true -> is_low_surrogate c2 = true ->
  token_text (pair_token c c2) = escape_char c ++ escape_char c2.
Proof.
  intros Hh Hl.
  rewrite (escape_char_surrogate c (high_is_surrogate c Hh)).
  rewrite (escape_char_surrogate c2 (low_is_surrogate c2 Hl)). reflexivity.
Qed.

Lemma tokens_of_cons c c2 s2 :
  tokens_of (c :: c2 :: s2)
  = if is_high_surrogate c && is_low_surrogate c2
    then pair_token c c2 :: tokens_of s2
    else char_token c :: tokens_of (c2 :: s2).
Proof. reflexivity. Qed.

Lemma rejoin_cons c c2 s2 :
  rejoin (c :: c2 :: s2)
  = if is_high_surrogate c && is_low_surrogate c2
    then join_surrogates c c2 :: rejoin s2
    else c :: rejoin (c2 :: s2).
Proof. reflexivity. Qed.

Lemma tokens_of_text n :
  forall s, (length s <= n)%nat -> flat_map token_text (tokens_of s) = escape s.
Proof.
  induction n as [|n IH]; intros s Hn.
  - destruct s; [reflexivity|cbn [length] in Hn; lia].
  - destruct s as [|c [|c2 s2]]; [reflexivity| |].
    + cbn [tokens_of flat_map escape]. rewrite char_token_text. reflexivity.
    + rewrite tokens_of_cons.
      destruct (is_high_surrogate c && is_low_surrogate c2) eqn:E.
      * apply andb_true_iff in E as [Hh Hl].
        cbn [flat_map escape]. rewrite (pair_token_text c c2 Hh Hl), <- app_assoc.
        rewrite IH by (cbn [length] in Hn; lia). reflexivity.
      * change (escape (c :: c2 :: s2)) with (escape_char c ++ escape (c2 :: s2)).
        cbn [flat_map]. rewrite char_token_text.
        rewrite IH by (cbn [length] in Hn |- *; lia). reflexivity.
Qed.

Lemma char_token_char c : code_point c -> token_char (char_token c) = Some c.
Proof.
  intros Hc. unfold char_token.
  destruct (c =? QUOTE) eqn:E1; [apply N.eqb_eq in E1; subst c; reflexivity|].
  destruct (c =? BACKSLASH) eqn:E2; [apply N.eqb_eq in E2; subst c; reflexivity|].
  destruct (c =? 10) eqn:E3; [apply N.eqb_eq in E3; subst c; reflexivity|].
  destruct (c =? 13) eqn:E4; [apply N.eqb_eq in E4; subst c; reflexivity|].
  destruct (c =? 9) eqn:E5; [apply N.eqb_eq in E5; subst c; reflexivity|].
  destruct (c =? 8) eqn:E6; [apply N.eqb_eq in E6; subst c; reflexivity|].
  destruct (c =? 12) eqn:E7; [apply N.eqb_eq in E7; subst c; reflexivity|].
  destruct ((0x20 <=? c) && (c <=? 0x7e)) eqn:E.
  { cbn [token_char]. rewrite E1, E2.
    apply andb_true_iff in E as [E _]. apply N.leb_le in E.
    replace (c <=? 0x1f) with false by (symmetry; apply N.leb_gt; lia).
    reflexivity. }
  destruct (c <? 0x10000) eqn:E9.
  { apply N.ltb_lt in E9. cbn [token_char]. apply decode_hex4_hex4, E9. }
  apply N.ltb_ge in E9. cbv zeta. cbn [token_char].
  destruct (surrogates_of c E9 Hc) as (Hh & Hl & Hhigh & _ & Hlow & Hjoin).
  rewrite (decode_hex4_hex4 _ Hh), (decode_hex4_hex4 _ Hl), Hhigh, Hlow, Hjoin.
  reflexivity.
Qed.

Lemma pair_token_char c c2 :
  is_high_surrogate c = true -> is_low_surrogate c2 = true ->
  token_char (pair_token c c2) = Some (join_surrogates c c2).
Proof.
  intros Hh Hl. unfold pair_token. cbn [token_char].
  rewrite (decode_hex4_hex4 c (surrogate_small c (high_is_surrogate c Hh))).
  rewrite (decode_hex4_hex4 c2 (surrogate_small c2 (low_is_surrogate c2 Hl))).
  rewrite Hh, Hl. reflexivity.
Qed.

(** The value of the token of a character, when that token is a [U4]. *)
Lemma char_token_U4 c a b x d :
  code_point c -> char_token c = U4 a b x d -> decode_hex4 a b x d = Some c.
Proof.
  intros Hc H. rewrite <- (char_token_char c Hc), H. reflexivity.
Qed.

Lemma splits_pair_char c rest :
  code_point c ->
  match rest with
  | t :: _ =>
      (exists c2, code_point c2 /\ t = char_token c2 /\
                  is_high_surrogate c && is_low_surrogate c2 = false)
      \/ (exists a b, t = pair_token a b)
  | [] => True
  end ->
  splits_pair (char_token c) rest = false.
Proof.
  intros Hc Hrest.
  destruct (char_token c) as [y|e|a b x d|] eqn:Et; try reflexivity.
  destruct rest as [|t rest]; [reflexivity|].
  destruct Hrest as [(c2 & Hc2 & -> & Hn)|(a2 & b2 & ->)]; [|reflexivity].
  destruct (char_token c2) as [y|e|a2 b2 x2 d2|] eqn:Et2; try reflexivity.
  cbn [splits_pair].
  rewrite (char_token_U4 c _ _ _ _ Hc Et), (char_token_U4 c2 _ _ _ _ Hc2 Et2).
  exact Hn.
Qed.

Lemma tokens_of_chars n :
  forall s, (length s <= n)%nat -> valid_str s ->
            literal_chars (tokens_of s) = Some (rejoin s).
Proof.
  induction n as [|n IH]; intros s Hn Hv.
  - destruct s; [reflexivity|cbn [length] in Hn; lia].
  - destruct s as [|c [|c2 s2]]; [reflexivity| |].
    + apply Forall_cons in Hv as [Hc _].
      cbn [tokens_of literal_chars rejoin].
      rewrite (splits_pair_char c [] Hc I), (char_token_char c Hc). reflexivity.
    + apply Forall_cons in Hv as [Hc Hv]. pose proof Hv as Hv'.
      apply Forall_cons in Hv' as [Hc2 Hv2].
      rewrite tokens_of_cons, rejoin_cons.
      destruct (is_high_surrogate c && is_low_surrogate c2) eqn:E.
      * apply andb_true_iff in E as [Hh Hl].
        cbn [literal_chars splits_pair pair_token]. fold (pair_token c c2).
        rewrite (pair_token_char c c2 Hh Hl).
        rewrite (IH s2); [reflexivity|cbn [length] in Hn; lia|exact Hv2].
      * cbn [literal_chars].
        rewrite (IH (c2 :: s2)); [|cbn [length] in Hn |- *; lia|exact Hv].
        rewrite (char_token_char c Hc), splits_pair_char; [reflexivity|exact Hc|].
        destruct s2 as [|c3 s3].
        -- left. exists c2. auto.
        -- rewrite tokens_of_cons.
           destruct (is_high_surrogate c2 && is_low_surrogate c3).
           ++ right. eauto.
           ++ left. exists c2. auto.
Qed.

Lemma rejoin_plain s : no_split_pair s = true -> rejoin s = s.
Proof.
  induction s as [|c s IH]; [reflexivity|].
  cbn [no_split_pair]. intros H. apply andb_true_iff in H as [H1 H2].
  cbn [rejoin]. destruct s as [|c2 s2]; [reflexivity|].
  apply negb_true_iff in H1. rewrite H1, (IH H2). reflexivity.
Qed.

Lemma literal_text_tokens s : literal_text (tokens_of s) = encode_str s.
Proof.
  unfold literal_text, encode_str. rewrite (tokens_of_text (length s) s (le_n _)). reflexivity.
Qed.

Lemma dumps_members_text d :
  forall first : bool,
    members_str (dumps_members first d)
    = match d with
      | [] => []
      | _ :: _ => (if first then [] else [32]) ++ dumps_items d
      end.
Proof.
  induction d as [|[k v] d IH]; intros first; [reflexivity|].
  rewrite dumps_items_cons. cbn [dumps_members]. rewrite members_str_cons.
  unfold member_str. cbn [ws_before m_key ws_key ws_colon m_val ws_val].
  rewrite !literal_text_tokens, lit_colon, app_nil_r.
  destruct d as [|kv d].
  - cbn [dumps_members Datatypes.app]. rewrite !app_nil_r. reflexivity.
  - rewrite (IH false), lit_comma. destruct kv as [k2 v2].
    cbn [dumps_members Datatypes.app].
    rewrite <- !app_assoc. cbn [Datatypes.app]. reflexivity.
Qed.

Lemma dumps_layout_text d : layout_text (dumps_layout d) = json_dumps d.
Proof.
  unfold layout_text, dumps_layout, json_dumps.
  cbn [ws_lead ws_open l_members ws_trail Datatypes.app].
  rewrite (proj1 lit_braces), (proj2 lit_braces), dumps_members_text.
  destruct d; reflexivity.
Qed.

Lemma dumps_members_pairs d :
  forall first,
    Forall (fun kv => valid_str kv.1 /\ valid_str kv.2) d ->
    members_pairs (dumps_members first d)
    = Some (map (fun kv => (rejoin kv.1, rejoin kv.2)) d).
Proof.
  induction d as [|[k v] d IH]; intros first Hd; [reflexivity|].
  apply Forall_cons in Hd as [[Hk Hv] Hd]. cbn [fst snd] in Hk, Hv.
  cbn [dumps_members members_pairs map fst snd]. rewrite (IH false Hd).
  unfold member_pair. cbn [ws_before m_key ws_key ws_colon m_val ws_val].
  rewrite (tokens_of_chars (length k) k (le_n _) Hk), (tokens_of_chars (length v) v (le_n _) Hv).
  destruct first; reflexivity.
Qed.

(** [json.loads(json.dumps(d))] for any strings: each string comes back with
    its split pairs joined. *)
Lemma json_loads_dumps_any d :
  Forall (fun kv => valid_str kv.1 /\ valid_str kv.2) d ->
  json_loads (json_dumps d)
  = Some (dict_of (map (fun kv => (rejoin kv.1, rejoin kv.2)) d)).
Proof.
  intros Hd. rewrite <- dumps_layout_text. apply json_loads_layout.
  unfold layout_pairs, dumps_layout. cbn [ws_lead ws_open l_members ws_trail ws_ok forallb andb].
  apply dumps_members_pairs, Hd.
Qed.

(** The identifier read back from a payload. *)
Lemma json_loads_payload_jid jid text :
  plain_str jid -> valid_str text ->
  json_loads (json_dumps (payload jid text)) ≫= (fun m => m !! lit "chatJid") = Some jid.
Proof.
  intros [Hv Hp] Ht. rewrite json_loads_dumps_any.
  - cbn [mbind option_bind]. unfold payload, dict_of. cbn [map foldl fst snd].
    rewrite lookup_insert_ne by (rewrite rejoin_plain by reflexivity; discriminate).
    rewrite (rejoin_plain (lit "chatJid")) by reflexivity.
    rewrite lookup_insert_eq, (rejoin_plain jid Hp). reflexivity.
  - unfold payload. repeat constructor; cbn [fst snd];
      try (apply valid_strb_spec; reflexivity); assumption.
Qed.

(** ** The loader and the decoder *)

Lemma decode_members_Some fuel :
  forall s acc x,
    parse_members fuel s acc = Some x -> decode_members fuel s acc = Returns x.
Proof.
  induction fuel as [|fuel IH]; intros s acc x H; [discriminate H|].
  cbn [parse_members decode_members] in *.
  destruct (expect QUOTE s) as [s1|]; [|discriminate H]. cbn [mbind option_bind] in H.
  destruct (scanstring s1) as [[key s2]|]; [|discriminate H]. cbn [mbind option_bind] in H.
  destruct (expect 58 (skip_ws s2)) as [s3|]; [|discriminate H].
  cbn [mbind option_bind] in H.
  destruct (skip_ws s3) as [|c s4]; [discriminate H|]. cbn [expect] in H.
  destruct (c =? QUOTE); [|discriminate H]. cbn [mbind option_bind] in H.
  destruct (scanstring s4) as [[val s5]|]; [|discriminate H]. cbn [mbind option_bind] in H.
  destruct (skip_ws s5) as [|c' s6]; [discriminate H|].
  destruct (c' =? 125); [injection H as <-; reflexivity|].
  destruct (c' =? 44); [|discriminate H]. apply IH, H.
Qed.

Lemma decode_groups_Some text m :
  json_loads text = Some m -> decode_groups text = Returns m.
Proof.
  unfold json_loads, decode_groups. destruct text as [|c text]; [discriminate|].
  destruct (c =? 0xfeff); [discriminate|].
  destruct (skip_ws (c :: text)) as [|c1 s1]; [discriminate|]. cbn [expect].
  destruct (c1 =? 123); [|discriminate]. cbn [mbind option_bind].
  unfold parse_object, decode_end.
  destruct (skip_ws s1) as [|c2 r]; [discriminate|].
  destruct (c2 =? 125).
  - cbn [mbind option_bind]. destruct (skip_ws r); [|discriminate].
    intros H. injection H as <-. reflexivity.
  - destruct (parse_members (length s1) (c2 :: r) ∅) as [[m' s2]|] eqn:E; [|discriminate].
    rewrite (decode_members_Some _ _ _ _ E). cbn [mbind option_bind].
    destruct (skip_ws s2); [|discriminate]. intros H. injection H as <-. reflexivity.
Qed.

Lemma load_groups_layout groups_config t L d :
  layout_pairs L = Some d ->
  t !! path_str groups_config = Some (File (layout_text L)) ->
  _load_groups groups_config t = Returns (dict_of d).
Proof.
  intros HL H. unfold _load_groups, fs_read_text.
  rewrite (fs_exists_Some _ _ _ H), H. cbn [negb].
  apply decode_groups_Some, json_loads_layout, HL.
Qed.
(** ** The characters the encoder writes *)

Lemma hexdigit_printable n : n < 16 -> printable (hexdigit n).
Proof.
  intros Hn. unfold hexdigit, printable.
  destruct (n <? 10) eqn:E; [apply N.ltb_lt in E|apply N.ltb_ge in E]; lia.
Qed.

Lemma land_15 x : N.land x 0xf < 16.
Proof.
  change 0xf with (N.ones 4). rewrite N.land_ones. apply N.mod_lt. discriminate.
Qed.

Lemma u_escape_printable c : Forall printable (u_escape c).
Proof.
  unfold u_escape, hex4.
  repeat constructor; try (apply hexdigit_printable, land_15); discriminate.
Qed.

Lemma escape_char_printable c : Forall printable (escape_char c).
Proof.
  unfold escape_char.
  repeat match goal with
  | |- context [if ?b then _ else _] => destruct b eqn:?
  end;
    try (repeat constructor; discriminate);
    try apply u_escape_printable;
    try (apply Forall_app; split; apply u_escape_printable).
  match goal with
  | H : _ && _ = true |- _ => apply andb_true_iff in H as [H1 H2]
  end.
  apply N.leb_le in H1, H2. repeat constructor; assumption.
Qed.

Lemma encode_str_printable s : Forall printable (encode_str s).
Proof.
  unfold encode_str. constructor; [split; discriminate|].
  apply Forall_app; split; [|repeat constructor; discriminate].
  induction s as [|c s IH]; cbn [escape]; [constructor|].
  apply Forall_app; split; [apply escape_char_printable|exact IH].
Qed.

Lemma json_dumps_printable d : Forall printable (json_dumps d).
Proof.
  unfold json_dumps. rewrite (proj1 lit_braces), (proj2 lit_braces).
  apply Forall_app; split; [repeat constructor; discriminate|].
  apply Forall_app; split; [|repeat constructor; discriminate].
  induction d as [|[k v] d IH]; [constructor|].
  rewrite dumps_items_cons, lit_colon.
  repeat (apply Forall_app; split); try apply encode_str_printable;
    try (repeat constructor; discriminate).
  destruct d as [|kv d]; [constructor|]. rewrite lit_comma.
  apply Forall_app; split; [repeat constructor; discriminate|exact IH].
Qed.

(** * The claims *)

(** C1, as amended.  For every non-empty group name [g] that the loaded
    mapping sends to [jid], when [<base>/ipc/main/messages] is a directory,
    the file name is not taken by a directory, the path of the file can be
    encoded as UTF-8 and [jid] holds no high surrogate directly followed by
    a low one, [POST /send] with that group and a message answers 200 with
    [{"ok": true, "file": path}], [path] being the full path of the file
    written; the state afterwards is the state before with that one name
    bound to the serialised payload, the file lies directly in the messages
    directory, and the [chatJid] member read back from the file is [jid]. *)
Theorem send_known_group (w : World) (ms : Z) (body : gmap str jval) (msg g jid : str) :
  body !! lit "message" = Some (JString msg) ->
  body !! lit "group" = Some (JString g) ->
  g <> [] ->
  _GROUPS (globals w) !! g = Some jid ->
  fs w !! path_str (ipc_dir (globals w)) = Some Dir ->
  fs w !! path_str (ipc_file (globals w) ms) <> Some Dir ->
  utf8_encodable (path_str (ipc_file (globals w) ms)) = true ->
  plain_str jid -> valid_str msg ->
  let f := ipc_file (globals w) ms in
  let text := json_dumps (payload jid msg) in
  app ms (POST_send body) w
    = (mkResponse 200 (Json (OkFile (path_str f))),
       mkWorld (globals w) (<[path_str f := File text]> (fs w)))
  /\ parent f = ipc_dir (globals w)
  /\ json_loads text ≫= (fun m => m !! lit "chatJid") = Some jid.
Proof.
  intros Hm Hg Hne Hjid Hdir Hfile Henc Hj Ht f text.
  repeat split.
  - assert (Hv : validate body = Some (mkSendRequest msg (Some g))).
    { rewrite (validate_fields body msg Hm), Hg. reflexivity. }
    rewrite (app_send_ok ms body _ w jid Hv); [|
      unfold group_name; cbn [group]; rewrite (py_or_nonempty g _ Hne); exact Hjid
      |exact Hdir|exact Hfile].
    rewrite json_response_ok by exact Henc. reflexivity.
  - apply parent_ipc_file.
  - apply json_loads_payload_jid; assumption.
Qed.

Lemma send_known_group_witness :
  app 1700000000123
    (POST_send (send_body (lit "hello world") (Some (lit "dev")))) test_world
  = (mkResponse 200
       (Json (OkFile (lit "/data/ipc/main/messages/webhook-1700000000123.json"))),
     mkWorld test_globals
       (<[lit "/data/ipc/main/messages/webhook-1700000000123.json" :=
            File (json_dumps (payload (lit "123456789@g.us") (lit "hello world")))]>
          test_fs)).
Proof.
  apply (send_known_group test_world 1700000000123
           (send_body (lit "hello world") (Some (lit "dev")))
           (lit "hello world") (lit "dev") (lit "123456789@g.us"));
    try (apply plain_strb_spec); try (apply valid_strb_spec);
    vm_compute; (reflexivity || discriminate).
Defined.

(** C1, as stated, fails three times.  The group named by the empty string
    is present in the mapping and the messages directory exists, yet the
    file written carries the identifier of the default group.  For a group
    of the mapping the answer is 503, with nothing written, when the
    messages directory does not exist.  And under a data directory whose
    name holds a surrogate the file is written and the answer is 500, the
    response that carries the path being impossible to encode. *)
Lemma send_known_group_counterexample :
  (_GROUPS (globals unnamed_world) !! [] = Some (lit "555@g.us") /\
   fs unnamed_world !! path_str (ipc_dir (globals unnamed_world)) = Some Dir /\
   (app 7 (POST_send (send_body (lit "hi") (Some []))) unnamed_world).2
   = mkWorld (globals unnamed_world)
       (<[lit "/data/ipc/main/messages/webhook-7.json" :=
            File (json_dumps (payload (lit "123456789@g.us") (lit "hi")))]> test_fs) /\
   lit "123456789@g.us" <> lit "555@g.us") /\
  (_GROUPS (globals bare_world) !! lit "dev" = Some (lit "123456789@g.us") /\
   app 7 (POST_send (send_body (lit "hi") (Some (lit "dev")))) bare_world
   = (mkResponse 503 (Detail (lit "IPC messages directory does not exist")), bare_world)) /\
  (_GROUPS (globals odd_world) !! lit "dev" = Some (lit "123456789@g.us") /\
   fs odd_world !! path_str (ipc_dir (globals odd_world)) = Some Dir /\
   app 7 (POST_send (send_body (lit "hi") (Some (lit "dev")))) odd_world
   = (mkResponse 500 InternalServerError,
      mkWorld (globals odd_world)
        (<[odd_dir ++ lit "/ipc/main/messages/webhook-7.json" :=
             File (json_dumps (payload (lit "123456789@g.us") (lit "hi")))]>
           (fs odd_world)))).
Proof. repeat split; vm_compute; (reflexivity || discriminate). Qed.




(** C3, as amended.  The name [send] looks up in the mapping is the
    request's group when that field is present and not empty, and the
    configured default group name when the field is absent or is the empty
    string: in the first case the request is handled as the lookup of the
    request's group prescribes (a 404 naming it when the mapping does not
    have it, the payload with its identifier when all goes well), in the
    second case as the lookup of the default name prescribes. *)
Theorem effective_group (ms : Z) (req : SendRequest) (w : World) :
  (forall g, group req = Some g -> g <> [] -> looks_up ms req w g) /\
  (group req = None \/ group req = Some [] ->
   looks_up ms req w (_DEFAULT_GROUP (globals w))).
Proof.
  split.
  - intros g Hg Hne.
    assert (E : group_name req (globals w) = g).
    { unfold group_name. rewrite Hg. apply py_or_nonempty, Hne. }
    rewrite <- E. apply send_looks_up.
  - intros H.
    assert (E : group_name req (globals w) = _DEFAULT_GROUP (globals w)).
    { unfold group_name. destruct H as [-> | ->]; reflexivity. }
    rewrite <- E. apply send_looks_up.
Qed.

Lemma effective_group_witness :
  looks_up 7 (mkSendRequest (lit "hi") (Some (lit "alerts"))) test_world (lit "alerts").
Proof.
  apply (proj1 (effective_group 7 (mkSendRequest (lit "hi") (Some (lit "alerts")))
                  test_world) (lit "alerts")); [reflexivity|discriminate].
Defined.

(** C3, as stated, fails: a group field that is present, as the empty
    string, is not the name looked up; the default is.  The mapping has no
    group of the empty name, so a lookup of it would end in a 404, and the
    request is answered 200 with the identifier of the default group. *)
Lemma effective_group_counterexample :
  let req := mkSendRequest (lit "hi") (Some []) in
  group req = Some [] /\
  _GROUPS (globals test_world) !! [] = None /\
  ~ looks_up 7 req test_world [] /\
  send 7 req test_world
  = (inr (OkFile (lit "/data/ipc/main/messages/webhook-7.json")),
     mkWorld test_globals
       (<[lit "/data/ipc/main/messages/webhook-7.json" :=
            File (json_dumps (payload (lit "123456789@g.us") (lit "hi")))]> test_fs)).
Proof.
  cbv zeta. split; [reflexivity|]. split; [vm_compute; reflexivity|]. split.
  - intros H. vm_compute in H. discriminate H.
  - vm_compute. reflexivity.
Qed.

(** C4, as amended.  For a [/send] request whose effective group is not in
    the loaded mapping, whether or not the messages directory exists, the
    handler fails with the 404 condition, the detail of the error contains
    that group name, and the state is left as it was; the client gets that
    404 when the name can be encoded as UTF-8, and a 500 when the name
    holds a surrogate. *)
Theorem send_unknown_group (w : World) (ms : Z) (body : gmap str jval)
    (req : SendRequest) :
  validate body = Some req ->
  _GROUPS (globals w) !! group_name req (globals w) = None ->
  let name := group_name req (globals w) in
  send ms req w = (inl (HTTPException 404 (not_found_detail name)), w) /\
  contains (not_found_detail name) name /\
  app ms (POST_send body) w
  = (if utf8_encodable name then mkResponse 404 (Detail (not_found_detail name))
     else mkResponse 500 InternalServerError, w).
Proof.
  intros Hv Hg name. repeat split.
  - rewrite send_outcome. cbv zeta. rewrite Hg. reflexivity.
  - exists (lit "Group '"), (lit "' not found in groups config"). reflexivity.
  - rewrite (app_send _ _ _ _ Hv), respond_send. cbv zeta.
    rewrite Hg, not_found_response. reflexivity.
Qed.

Lemma send_unknown_group_witness :
  app 7 (POST_send (send_body (lit "hi") (Some (lit "nonexistent")))) test_world
  = (mkResponse 404 (Detail (lit "Group 'nonexistent' not found in groups config")),
     test_world).
Proof.
  apply (send_unknown_group test_world 7
           (send_body (lit "hi") (Some (lit "nonexistent")))
           (mkSendRequest (lit "hi") (Some (lit "nonexistent"))));
    vm_compute; reflexivity.
Defined.

(** C4, as stated, fails: a group name made of a lone surrogate is not in
    the mapping, and the request naming it is answered 500, not 404. *)
Lemma send_unknown_group_counterexample :
  let req := mkSendRequest (lit "hi") (Some [0xDC00]) in
  validate (send_body (lit "hi") (Some [0xDC00])) = Some req /\
  _GROUPS (globals test_world) !! group_name req (globals test_world) = None /\
  app 7 (POST_send (send_body (lit "hi") (Some [0xDC00]))) test_world
  = (mkResponse 500 InternalServerError, test_world).
Proof. cbv zeta. repeat split; vm_compute; reflexivity. Qed.

(** C5, as amended.  For every successful [/send] request whose message and
    resolved identifier contain no high surrogate directly followed by a low
    surrogate, which every well-formed Unicode text satisfies, parsing the
    content of the file written yields exactly the object with [type]
    ["message"], [chatJid] the identifier the mapping gives for the effective
    group, and [text] the message of the request. *)
Theorem written_file_round_trip (w : World) (ms : Z) (req : SendRequest)
    (jid f : str) :
  (send ms req w).1 = inr (OkFile f) ->
  _GROUPS (globals w) !! group_name req (globals w) = Some jid ->
  plain_str jid -> plain_str (message req) ->
  exists text,
    fs (send ms req w).2 !! f = Some (File text) /\
    json_loads text = Some (ipc_message jid (message req)).
Proof.
  rewrite send_unfold. cbv zeta. intros Hok Hjid Hpj Hpm. rewrite Hjid in *.
  destruct (fs_exists (ipc_dir (globals w)) (fs w)); [|discriminate Hok].
  unfold fs_write_text in *.
  destruct (fs w !! path_str (parent (ipc_file (globals w) ms))) as [[|?]|];
    try discriminate Hok.
  exists (json_dumps (payload jid (message req))).
  split; [|apply json_loads_payload; assumption].
  destruct (fs w !! path_str (ipc_file (globals w) ms)) as [[|?]|];
    try discriminate Hok;
    cbn [fst snd fs] in *; injection Hok as <-; apply lookup_insert_eq.
Qed.

Lemma written_file_round_trip_witness :
  exists text,
    fs (send 7 (mkSendRequest (lit "hello world") (Some (lit "dev"))) test_world).2
      !! lit "/data/ipc/main/messages/webhook-7.json" = Some (File text) /\
    json_loads text = Some (ipc_message (lit "123456789@g.us") (lit "hello world")).
Proof.
  apply (written_file_round_trip test_world 7
           (mkSendRequest (lit "hello world") (Some (lit "dev")))
           (lit "123456789@g.us") (lit "/data/ipc/main/messages/webhook-7.json"));
    try (apply plain_strb_spec); vm_compute; reflexivity.
Defined.

(** C5, as stated, fails: a message made of a high surrogate followed by a
    low surrogate is accepted and written, and parsing the file yields one
    character above [0xFFFF] in its place. *)
Lemma written_file_round_trip_counterexample :
  let req := mkSendRequest [0xD800; 0xDC00] (Some (lit "dev")) in
  let f := lit "/data/ipc/main/messages/webhook-7.json" in
  (send 7 req test_world).1 = inr (OkFile f) /\
  exists text,
    fs (send 7 req test_world).2 !! f = Some (File text) /\
    json_loads text = Some (ipc_message (lit "123456789@g.us") [0x10000]) /\
    json_loads text <> Some (ipc_message (lit "123456789@g.us") (message req)).
Proof.
  cbv zeta. split; [vm_compute; reflexivity|].
  exists (json_dumps (payload (lit "123456789@g.us") [0xD800; 0xDC00])).
  split; [vm_compute; reflexivity|].
  assert (H : json_loads (json_dumps (payload (lit "123456789@g.us") [0xD800; 0xDC00]))
              = Some (ipc_message (lit "123456789@g.us") [0x10000]))
    by (vm_compute; reflexivity).
  split; [exact H|]. rewrite H. intros E.
  apply (f_equal (fun o : option (gmap str str) => o ≫= (fun m => m !! lit "text"))) in E.
  vm_compute in E. discriminate E.
Qed.

(** C6.  A [/send] request with a message and without the group field gets
    the same response and leaves the same state, the file written included,
    as the request with the group field set to the configured default group
    name.  The same holds of a body without a message when the default group
    name can be encoded as UTF-8. *)
Theorem omitted_group_is_default (w : World) (ms : Z) (body : gmap str jval) :
  body !! lit "group" = None ->
  is_Some (body !! lit "message") \/
    utf8_encodable (_DEFAULT_GROUP (globals w)) = true ->
  app ms (POST_send body) w
  = app ms (POST_send (<[lit "group" := JString (_DEFAULT_GROUP (globals w))]> body)) w.
Proof.
  intros Hg Hm. unfold app.
  set (body' := <[lit "group" := JString (_DEFAULT_GROUP (globals w))]> body).
  assert (Hm' : body' !! lit "message" = body !! lit "message")
    by (apply lookup_insert_ne; discriminate).
  assert (Hg' : body' !! lit "group" = Some (JString (_DEFAULT_GROUP (globals w))))
    by apply lookup_insert_eq.
  destruct (body !! lit "message") as [v|] eqn:E.
  - destruct v as [|b|n|msg|l|l];
      try (unfold validate, errors_renderable; rewrite Hm', Hg', E, Hg; reflexivity).
    unfold validate. rewrite Hm', Hg', E, Hg.
    unfold respond. rewrite !send_unfold. cbv zeta.
    unfold group_name. cbn [group message]. rewrite py_or_default. reflexivity.
  - destruct Hm as [[v Hv]|Henc]; [discriminate Hv|].
    unfold validate. rewrite Hm', E. unfold body'.
    rewrite errors_renderable_group by (right; eauto).
    rewrite delete_id by exact Hg. reflexivity.
Qed.

Lemma omitted_group_is_default_witness :
  app 7 (POST_send (send_body (lit "no group specified") None)) test_world
  = app 7 (POST_send (send_body (lit "no group specified") (Some (lit "dev")))) test_world.
Proof.
  apply (omitted_group_is_default test_world 7
           (send_body (lit "no group specified") None)).
  - vm_compute. reflexivity.
  - left. vm_compute. eauto.
Defined.

(** Without a message the two requests can be told apart: with a default
    group name that holds a surrogate, the empty body is answered 422, and
    the body with that group and no message is answered 500, the validation
    error reporting back a body that cannot be encoded. *)
Lemma omitted_group_without_message :
  app 7 (POST_send ∅) odd_default_world
  = (mkResponse 422 ValidationErrors, odd_default_world) /\
  app 7 (POST_send (<[lit "group" := JString (_DEFAULT_GROUP (globals odd_default_world))]> ∅))
    odd_default_world
  = (mkResponse 500 InternalServerError, odd_default_world).
Proof. split; vm_compute; reflexivity. Qed.






(** C9.  No request, whatever its input and whether it succeeds or fails,
    changes the loaded mapping, the default group name, the base directory or
    the path of the configuration file. *)
Theorem configuration_read_only (ms : Z) (r : Request) (w : World) :
  globals (app ms r w).2 = globals w.
Proof.
  destruct r as [|body]; unfold app.
  - apply preserves_respond, preserves_health.
  - destruct (validate body) as [req|]; [|reflexivity].
    apply preserves_respond, preserves_send.
Qed.

(** C10.  A [/send] request whose group field is the empty string is handled
    exactly as the same request without the group field, and the name its
    handler looks up is the configured default group name. *)
Theorem empty_group_is_omitted (w : World) (ms : Z) (body : gmap str jval) :
  app ms (POST_send (<[lit "group" := JString []]> body)) w
  = app ms (POST_send (delete (lit "group") body)) w /\
  (forall msg,
      body !! lit "message" = Some (JString msg) ->
      validate (<[lit "group" := JString []]> body) = Some (mkSendRequest msg (Some [])) /\
      looks_up ms (mkSendRequest msg (Some [])) w (_DEFAULT_GROUP (globals w))).
Proof.
  split.
  - unfold app.
    rewrite (errors_renderable_group body (JString [])) by (right; eauto).
    unfold validate.
    rewrite lookup_insert_ne by discriminate.
    rewrite lookup_delete_ne by discriminate.
    rewrite lookup_insert_eq, lookup_delete_eq.
    destruct (body !! lit "message") as [[| | |msg| |]|]; reflexivity.
  - intros msg Hm. split.
    + rewrite (validate_fields _ msg)
        by (rewrite lookup_insert_ne by discriminate; exact Hm).
      rewrite lookup_insert_eq. reflexivity.
    + apply (send_looks_up ms (mkSendRequest msg (Some [])) w).
Qed.

Lemma empty_group_is_omitted_witness :
  looks_up 7 (mkSendRequest (lit "hi") (Some [])) test_world (lit "dev").
Proof.
  apply (proj2 (empty_group_is_omitted test_world 7 (send_body (lit "hi") None))
           (lit "hi")).
  vm_compute. reflexivity.
Defined.
(** * Further properties of the module *)

(** ** The outcome of a request *)

(** X1.  A valid [/send] request is answered 200 exactly when its effective
    group is in the mapping, the messages path is a directory, the file
    name is not bound to a directory and the path of the file can be
    encoded as UTF-8. *)
Theorem send_succeeds_iff (w : World) (ms : Z) (body : gmap str jval)
    (req : SendRequest) :
  validate body = Some req ->
  status (app ms (POST_send body) w).1 = 200 <->
  (is_Some (_GROUPS (globals w) !! group_name req (globals w)) /\
   fs w !! path_str (ipc_dir (globals w)) = Some Dir /\
   fs w !! path_str (ipc_file (globals w) ms) <> Some Dir /\
   utf8_encodable (path_str (ipc_file (globals w) ms)) = true).
Proof.
  intros Hv. rewrite (app_send _ _ _ _ Hv), respond_send. cbv zeta.
  destruct (_GROUPS (globals w) !! group_name req (globals w)) as [jid|].
  - destruct (fs w !! path_str (ipc_dir (globals w))) as [[|x]|].
    + assert (Hok : status (json_response 200
                              (Json (OkFile (path_str (ipc_file (globals w) ms))))) = 200
                    <-> utf8_encodable (path_str (ipc_file (globals w) ms)) = true).
      { unfold json_response. cbn [content_encodable].
        destruct (utf8_encodable (path_str (ipc_file (globals w) ms)));
          cbn [status]; split; (reflexivity || discriminate). }
      destruct (fs w !! path_str (ipc_file (globals w) ms)) as [[|y]|]; cbn [fst].
      * cbn [status]. split; [discriminate|]. intros (_ & _ & H & _). congruence.
      * rewrite Hok. split; [|tauto]. intros H. repeat split; eauto; discriminate.
      * rewrite Hok. split; [|tauto]. intros H. repeat split; eauto; discriminate.
    + cbn [fst status]. split; [discriminate|]. intros (_ & H & _). discriminate H.
    + cbn [fst status]. split; [discriminate|]. intros (_ & H & _). discriminate H.
  - cbn [fst]. split.
    + intros H. destruct (json_response_status 404
                            (Detail (not_found_detail (group_name req (globals w)))))
        as [E|E]; rewrite E in H; discriminate H.
    + intros ([x Hx] & _). discriminate Hx.
Qed.

Lemma send_succeeds_iff_witness :
  status (app 7 (POST_send (send_body (lit "hi") None)) test_world).1 = 200 <->
  (is_Some (_GROUPS (globals test_world)
              !! group_name (mkSendRequest (lit "hi") None) (globals test_world)) /\
   fs test_world !! path_str (ipc_dir (globals test_world)) = Some Dir /\
   fs test_world !! path_str (ipc_file (globals test_world) 7) <> Some Dir /\
   utf8_encodable (path_str (ipc_file (globals test_world) 7)) = true).
Proof.
  apply (send_succeeds_iff test_world 7 (send_body (lit "hi") None)
           (mkSendRequest (lit "hi") None)).
  reflexivity.
Defined.



(** X4.  When the messages path is bound to a regular file, or the name of
    the message file is bound to a directory, a request for a group of the
    mapping passes the existence check, the write fails, the answer is 500
    and nothing is written. *)
Theorem send_write_failure (w : World) (ms : Z) (body : gmap str jval)
    (req : SendRequest) :
  validate body = Some req ->
  is_Some (_GROUPS (globals w) !! group_name req (globals w)) ->
  (exists text, fs w !! path_str (ipc_dir (globals w)) = Some (File text)) \/
  (fs w !! path_str (ipc_dir (globals w)) = Some Dir /\
   fs w !! path_str (ipc_file (globals w) ms) = Some Dir) ->
  app ms (POST_send body) w = (mkResponse 500 InternalServerError, w).
Proof.
  intros Hv [jid Hj] H. rewrite (app_send _ _ _ _ Hv), respond_send. cbv zeta.
  rewrite Hj. destruct H as [[text ->]|[-> ->]]; reflexivity.
Qed.

Lemma send_write_failure_witness :
  app 7 (POST_send (send_body (lit "hi") (Some (lit "dev")))) blocked_world
  = (mkResponse 500 InternalServerError, blocked_world).
Proof.
  apply (send_write_failure blocked_world 7 (send_body (lit "hi") (Some (lit "dev")))
           (mkSendRequest (lit "hi") (Some (lit "dev")))).
  - reflexivity.
  - vm_compute. eauto.
  - left. exists []. vm_compute. reflexivity.
Defined.

(** ** The message files *)

(** X5.  Two clock readings give the same message file exactly when they
    are equal: requests handled in different milliseconds never share a
    file. *)
Theorem file_name_determines_millisecond (g : Globals) (ms ms' : Z) :
  path_str (ipc_file g ms) = path_str (ipc_file g ms') <-> ms = ms'.
Proof. split; [apply ipc_file_inj|intros ->; reflexivity]. Qed.

(** X6.  The path of the message file is the string of the messages
    directory, a slash, [webhook-], the clock reading in decimal and
    [.json]; and the messages directory is the base directory followed by
    [/ipc/main/messages] when the base directory has a component, and the
    root followed by [ipc/main/messages] when it has none. *)
Theorem message_file_path (g : Globals) (ms : Z) :
  path_str (ipc_file g ms)
  = path_str (ipc_dir g) ++ lit "/webhook-" ++ str_of_int ms ++ lit ".json" /\
  (tail (_DATA_DIR g) <> [] ->
   path_str (ipc_dir g) = path_str (_DATA_DIR g) ++ lit "/ipc/main/messages") /\
  (tail (_DATA_DIR g) = [] ->
   path_str (ipc_dir g) = root (_DATA_DIR g) ++ lit "ipc/main/messages").
Proof.
  repeat split.
  - apply ipc_file_str.
  - intros Ht. rewrite ipc_dir_parts.
    destruct (_DATA_DIR g) as [r t]. cbn [root tail] in *.
    change [lit "ipc"; lit "main"; lit "messages"]
      with ([lit "ipc"] ++ [lit "main"] ++ [lit "messages"]).
    rewrite !app_assoc.
    rewrite path_str_parts by (destruct t; discriminate).
    rewrite !join_sep_snoc by (first [exact Ht|destruct t; discriminate]).
    rewrite (path_str_parts r t Ht). rewrite <- !app_assoc. reflexivity.
  - intros Ht. rewrite ipc_dir_parts, Ht.
    rewrite path_str_parts by discriminate. reflexivity.
Qed.

Lemma message_file_path_witness :
  path_str (ipc_dir test_globals) = path_str (_DATA_DIR test_globals) ++ lit "/ipc/main/messages".
Proof.
  apply (proj1 (proj2 (message_file_path test_globals 0))). discriminate.
Defined.

(** X7.  Two requests for groups of the mapping, handled one after the
    other at different clock readings in a state where the messages
    directory exists, its path can be encoded as UTF-8 and neither file
    name is bound to a directory, are both answered 200; afterwards the two
    files are different names, each holds the payload of its own request,
    and with two fresh names the filesystem has grown by exactly two
    entries. *)
Theorem two_sends_two_files (w : World) (ms1 ms2 : Z) (b1 b2 : gmap str jval)
    (r1 r2 : SendRequest) (jid1 jid2 : str) :
  validate b1 = Some r1 -> validate b2 = Some r2 ->
  ms1 <> ms2 ->
  _GROUPS (globals w) !! group_name r1 (globals w) = Some jid1 ->
  _GROUPS (globals w) !! group_name r2 (globals w) = Some jid2 ->
  fs w !! path_str (ipc_dir (globals w)) = Some Dir ->
  utf8_encodable (path_str (ipc_dir (globals w))) = true ->
  fs w !! path_str (ipc_file (globals w) ms1) <> Some Dir ->
  fs w !! path_str (ipc_file (globals w) ms2) <> Some Dir ->
  let f1 := path_str (ipc_file (globals w) ms1) in
  let f2 := path_str (ipc_file (globals w) ms2) in
  let w1 := (app ms1 (POST_send b1) w).2 in
  let w2 := (app ms2 (POST_send b2) w1).2 in
  (app ms1 (POST_send b1) w).1 = mkResponse 200 (Json (OkFile f1)) /\
  (app ms2 (POST_send b2) w1).1 = mkResponse 200 (Json (OkFile f2)) /\
  f1 <> f2 /\
  fs w2 !! f1 = Some (File (json_dumps (payload jid1 (message r1)))) /\
  fs w2 !! f2 = Some (File (json_dumps (payload jid2 (message r2)))) /\
  (fs w !! f1 = None -> fs w !! f2 = None -> size (fs w2) = S (S (size (fs w)))).
Proof.
  intros Hv1 Hv2 Hms Hj1 Hj2 Hd Henc Hf1 Hf2 f1 f2 w1 w2.
  assert (Hne : f1 <> f2).
  { intros H. apply ipc_file_inj in H. contradiction. }
  assert (E1 := app_send_ok ms1 b1 r1 w jid1 Hv1 Hj1 Hd Hf1).
  rewrite (ok_response _ ms1 Henc) in E1.
  assert (E2 : app ms2 (POST_send b2) w1
               = (mkResponse 200 (Json (OkFile f2)),
                  mkWorld (globals w)
                    (<[f2 := File (json_dumps (payload jid2 (message r2)))]> (fs w1)))).
  { unfold w1. rewrite E1. cbn [snd].
    rewrite (app_send_ok ms2 b2 r2 _ jid2 Hv2); cbn [globals fs]; try assumption.
    - rewrite (ok_response _ ms2 Henc). reflexivity.
    - rewrite lookup_insert_ne; [exact Hd|apply ipc_file_not_dir].
    - rewrite lookup_insert_ne; [exact Hf2|exact Hne]. }
  unfold w2. rewrite E2. cbn [fst snd fs]. unfold w1. rewrite E1. cbn [fst snd fs].
  repeat split.
  - exact Hne.
  - rewrite lookup_insert_ne by congruence. apply lookup_insert_eq.
  - apply lookup_insert_eq.
  - intros N1 N2. fold f1 f2.
    rewrite map_size_insert_None by (rewrite lookup_insert_ne; [exact N2|exact Hne]).
    rewrite map_size_insert_None by exact N1. reflexivity.
Qed.

Lemma two_sends_two_files_witness :
  size (fs (app 2 (POST_send (send_body (lit "msg 2") (Some (lit "alerts"))))
              (app 1 (POST_send (send_body (lit "msg 1") (Some (lit "dev")))) test_world).2).2)
  = S (S (size (fs test_world))).
Proof.
  apply (two_sends_two_files test_world 1 2
           (send_body (lit "msg 1") (Some (lit "dev")))
           (send_body (lit "msg 2") (Some (lit "alerts")))
           (mkSendRequest (lit "msg 1") (Some (lit "dev")))
           (mkSendRequest (lit "msg 2") (Some (lit "alerts")))
           (lit "123456789@g.us") (lit "987654321@g.us"));
    try discriminate; try (vm_compute; reflexivity);
    intros H; vm_compute in H; discriminate H.
Defined.

(** X8.  When a request for a group of the mapping is handled at the same
    clock reading as an earlier request, its response and the state it
    leaves are those it would have given without the earlier request: the
    file of the earlier request is silently replaced. *)
Theorem same_millisecond_overwrites (w : World) (ms : Z) (b1 b2 : gmap str jval)
    (r2 : SendRequest) :
  validate b2 = Some r2 ->
  is_Some (_GROUPS (globals w) !! group_name r2 (globals w)) ->
  app ms (POST_send b2) (app ms (POST_send b1) w).2 = app ms (POST_send b2) w.
Proof.
  intros Hv2 [jid2 Hj2].
  unfold app at 2. destruct (validate b1) as [r1|]; [|reflexivity].
  rewrite respond_send. cbv zeta.
  destruct (_GROUPS (globals w) !! group_name r1 (globals w)) as [jid1|];
    [|reflexivity].
  destruct (fs w !! path_str (ipc_dir (globals w))) as [[|x]|] eqn:Hd;
    [|reflexivity..].
  destruct (fs w !! path_str (ipc_file (globals w) ms)) as [[|y]|] eqn:Hf;
    [reflexivity| |]; cbn [snd];
    rewrite !(app_send _ _ _ _ Hv2), !respond_send; cbv zeta; cbn [globals fs];
    rewrite Hj2, Hd, Hf, lookup_insert_eq,
      (lookup_insert_ne _ _ _ _ (ipc_file_not_dir (globals w) ms)), Hd,
      insert_insert_eq; reflexivity.
Qed.

Lemma same_millisecond_overwrites_witness :
  app 7 (POST_send (send_body (lit "msg 2") (Some (lit "alerts"))))
    (app 7 (POST_send (send_body (lit "msg 1") (Some (lit "dev")))) test_world).2
  = app 7 (POST_send (send_body (lit "msg 2") (Some (lit "alerts")))) test_world.
Proof.
  apply (same_millisecond_overwrites test_world 7
           (send_body (lit "msg 1") (Some (lit "dev")))
           (send_body (lit "msg 2") (Some (lit "alerts")))
           (mkSendRequest (lit "msg 2") (Some (lit "alerts")))).
  - reflexivity.
  - vm_compute. eauto.
Defined.

(** ** What the file holds *)

(** X9.  Whatever the message and the identifier, the text of the file a
    successful request writes consists of printable ASCII characters only:
    no line break, no control character, nothing above [0x7e]. *)
Theorem written_text_is_ascii (w : World) (ms : Z) (req : SendRequest) (f : str) :
  (send ms req w).1 = inr (OkFile f) ->
  exists text,
    fs (send ms req w).2 !! f = Some (File text) /\ Forall printable text.
Proof.
  intros H. destruct (send_ok_inv _ _ _ _ H) as (jid & _ & _ & Hf).
  eexists. split; [exact Hf|apply json_dumps_printable].
Qed.

Lemma written_text_is_ascii_witness :
  exists text,
    fs (send 7 (mkSendRequest [10; 233; 0x1F600] (Some (lit "dev"))) test_world).2
      !! lit "/data/ipc/main/messages/webhook-7.json" = Some (File text) /\
    Forall printable text.
Proof.
  apply (written_text_is_ascii test_world 7
           (mkSendRequest [10; 233; 0x1F600] (Some (lit "dev")))
           (lit "/data/ipc/main/messages/webhook-7.json")).
  vm_compute. reflexivity.
Defined.

Lemma ipc_message_fields jid text :
  ipc_message jid text !! lit "chatJid" = Some jid /\
  ipc_message jid text !! lit "text" = Some text.
Proof.
  unfold ipc_message. split.
  - rewrite lookup_insert_ne by discriminate. apply lookup_insert_eq.
  - apply lookup_insert_eq.
Qed.

(** X10.  For identifiers and messages without a high surrogate directly
    followed by a low one, the text written determines both: two payloads
    with the same serialisation have the same identifier and the same
    message. *)
Theorem file_text_determines_message (jid1 jid2 text1 text2 : str) :
  plain_str jid1 -> plain_str jid2 -> plain_str text1 -> plain_str text2 ->
  json_dumps (payload jid1 text1) = json_dumps (payload jid2 text2) ->
  jid1 = jid2 /\ text1 = text2.
Proof.
  intros Hj1 Hj2 Ht1 Ht2 H. apply (f_equal json_loads) in H.
  rewrite (json_loads_payload _ _ Hj1 Ht1), (json_loads_payload _ _ Hj2 Ht2) in H.
  apply (inj Some) in H.
  destruct (ipc_message_fields jid1 text1) as [A1 B1].
  destruct (ipc_message_fields jid2 text2) as [A2 B2].
  rewrite H in A1, B1. split; congruence.
Qed.

Lemma file_text_determines_message_witness :
  lit "123456789@g.us" = lit "123456789@g.us" /\ lit "hi" = lit "hi".
Proof.
  apply (file_text_determines_message (lit "123456789@g.us") (lit "123456789@g.us")
           (lit "hi") (lit "hi"));
    try (apply plain_strb_spec); reflexivity.
Defined.

(** X11.  The status and the path in the response do not depend on the
    message: two valid requests with the same group field, handled at the
    same clock reading in the same state, get the same response, whatever
    their messages, the empty one included. *)
Theorem response_ignores_message (w : World) (ms : Z) (b1 b2 : gmap str jval)
    (r1 r2 : SendRequest) :
  validate b1 = Some r1 -> validate b2 = Some r2 -> group r1 = group r2 ->
  (app ms (POST_send b1) w).1 = (app ms (POST_send b2) w).1.
Proof.
  intros H1 H2 Hg. rewrite (app_send _ _ _ _ H1), (app_send _ _ _ _ H2), !respond_send.
  cbv zeta. unfold group_name. rewrite Hg.
  destruct (_GROUPS (globals w) !! py_or (group r2) (_DEFAULT_GROUP (globals w)));
    [|reflexivity].
  destruct (fs w !! path_str (ipc_dir (globals w))) as [[|x]|]; [|reflexivity..].
  destruct (fs w !! path_str (ipc_file (globals w) ms)) as [[|y]|]; reflexivity.
Qed.

Lemma response_ignores_message_witness :
  (app 7 (POST_send (send_body [] (Some (lit "dev")))) test_world).1
  = (app 7 (POST_send (send_body (lit "hello world") (Some (lit "dev")))) test_world).1.
Proof.
  apply (response_ignores_message test_world 7
           (send_body [] (Some (lit "dev")))
           (send_body (lit "hello world") (Some (lit "dev")))
           (mkSendRequest [] (Some (lit "dev")))
           (mkSendRequest (lit "hello world") (Some (lit "dev"))));
    reflexivity.
Defined.

(** ** From the configuration to the requests *)

Lemma load_module_inv environ t w :
  load_module environ t = Returns w ->
  let p := Path_of_str
             (environ_get environ (lit "GROUPS_CONFIG") (lit "/config/groups.json")) in
  _load_groups p t = Returns (_GROUPS (globals w)) /\
  _DATA_DIR (globals w)
  = Path_of_str (environ_get environ (lit "NANOCLAW_DATA_DIR") (lit "/data")) /\
  _GROUPS_CONFIG (globals w) = p /\
  _DEFAULT_GROUP (globals w) = environ_get environ (lit "DEFAULT_GROUP") [] /\
  fs w = t.
Proof.
  unfold load_module. cbv zeta.
  destruct (_load_groups _ t) as [m|e|]; [|discriminate..].
  intros H. injection H as <-. repeat split.
Qed.

Lemma dict_of_snoc d k v : dict_of (d ++ [(k, v)]) = <[k := v]> (dict_of d).
Proof. unfold dict_of. rewrite foldl_snoc. reflexivity. Qed.



(** X13.  A configuration file that exists but holds nothing, or white space
    only, makes the load of the module fail with a decoding error, unlike a
    missing file; and so does, with an error of the filesystem, a directory
    at the configured path. *)
Theorem blank_configuration_fails (environ : gmap str str) (t : FS) :
  let p := Path_of_str
             (environ_get environ (lit "GROUPS_CONFIG") (lit "/config/groups.json")) in
  (forall text,
      t !! path_str p = Some (File text) -> skip_ws text = [] ->
      load_module environ t = Raises JSONDecodeError) /\
  (t !! path_str p = Some Dir -> load_module environ t = Raises OSError).
Proof.
  cbv zeta. split.
  - intros text H Hws. unfold load_module, _load_groups, fs_read_text. cbv zeta.
    rewrite (fs_exists_Some _ _ _ H), H. cbn [negb].
    assert (E : decode_groups text = Raises JSONDecodeError).
    { unfold decode_groups. destruct text as [|c text]; [reflexivity|].
      destruct (c =? 0xfeff); [reflexivity|]. rewrite Hws. reflexivity. }
    rewrite E. reflexivity.
  - intros H. unfold load_module, _load_groups, fs_read_text. cbv zeta.
    rewrite (fs_exists_Some _ _ _ H), H. reflexivity.
Qed.

Lemma blank_configuration_fails_witness :
  load_module ∅ (<[lit "/config/groups.json" := File (lit "  ")]> test_fs)
  = Raises JSONDecodeError.
Proof.
  apply (proj1 (blank_configuration_fails ∅
                  (<[lit "/config/groups.json" := File (lit "  ")]> test_fs))
           (lit "  "));
    vm_compute; reflexivity.
Defined.

(** X14.  From the file to the message: when the configuration file holds
    a flat object of string pairs, however it is laid out, the module loads,
    and a later request naming a non-empty group that the pairs map to
    [jid], in any state where the messages directory exists, the file name
    is not bound to a directory and the path of the file can be encoded as
    UTF-8, is answered 200 and writes the payload carrying [jid]. *)
Theorem configured_group_is_served (environ : gmap str str) (t : FS) (L : layout)
    (d : odict) (g jid : str) :
  layout_pairs L = Some d ->
  t !! path_str (Path_of_str
         (environ_get environ (lit "GROUPS_CONFIG") (lit "/config/groups.json")))
  = Some (File (layout_text L)) ->
  dict_of d !! g = Some jid -> g <> [] ->
  exists w0,
    load_module environ t = Returns w0 /\
    forall w ms msg,
      globals w = globals w0 ->
      fs w !! path_str (ipc_dir (globals w)) = Some Dir ->
      fs w !! path_str (ipc_file (globals w) ms) <> Some Dir ->
      utf8_encodable (path_str (ipc_file (globals w) ms)) = true ->
      app ms (POST_send (send_body msg (Some g))) w
      = (mkResponse 200 (Json (OkFile (path_str (ipc_file (globals w) ms)))),
         mkWorld (globals w)
           (<[path_str (ipc_file (globals w) ms) :=
                File (json_dumps (payload jid msg))]> (fs w))).
Proof.
  intros HL Hfile Hg Hne. unfold load_module. cbv zeta.
  rewrite (load_groups_layout _ _ _ _ HL Hfile).
  eexists. split; [reflexivity|].
  intros w ms msg HG Hdir Hf Henc.
  rewrite (app_send_ok ms _ (mkSendRequest msg (Some g)) w jid);
    [|apply validate_send_body| |exact Hdir|exact Hf].
  - rewrite json_response_ok by exact Henc. reflexivity.
  - unfold group_name. cbn [group]. rewrite (py_or_nonempty g _ Hne), HG. exact Hg.
Qed.

Lemma configured_group_is_served_witness :
  exists w0,
    load_module ∅ hand_fs = Returns w0 /\
    forall w ms msg,
      globals w = globals w0 ->
      fs w !! path_str (ipc_dir (globals w)) = Some Dir ->
      fs w !! path_str (ipc_file (globals w) ms) <> Some Dir ->
      utf8_encodable (path_str (ipc_file (globals w) ms)) = true ->
      app ms (POST_send (send_body msg (Some (lit "alerts")))) w
      = (mkResponse 200 (Json (OkFile (path_str (ipc_file (globals w) ms)))),
         mkWorld (globals w)
           (<[path_str (ipc_file (globals w) ms) :=
                File (json_dumps (payload (lit "987654321@g.us") msg))]> (fs w))).
Proof.
  apply (configured_group_is_served ∅ hand_fs hand_layout test_config (lit "alerts")
           (lit "987654321@g.us")).
  - vm_compute. reflexivity.
  - vm_compute. reflexivity.
  - vm_compute. reflexivity.
  - discriminate.
Defined.

(** X15.  When [DEFAULT_GROUP] is not set the default group is the empty
    name: a valid request without a group, or with the empty one, looks up
    the empty name and, unless the mapping has a group of that name, is
    answered 404 with the detail [Group '' not found in groups config]. *)
Theorem unset_default_group (environ : gmap str str) (t : FS) (w0 : World) :
  environ !! lit "DEFAULT_GROUP" = None ->
  load_module environ t = Returns w0 ->
  _DEFAULT_GROUP (globals w0) = [] /\
  forall w ms body req,
    globals w = globals w0 -> validate body = Some req ->
    group req = None \/ group req = Some [] ->
    _GROUPS (globals w0) !! [] = None ->
    app ms (POST_send body) w
    = (mkResponse 404 (Detail (lit "Group '' not found in groups config")), w).
Proof.
  intros He Hl. destruct (load_module_inv _ _ _ Hl) as (_ & _ & _ & Hdef & _).
  unfold environ_get in Hdef. rewrite He in Hdef. split; [exact Hdef|].
  intros w ms body req HG Hv Hgrp Hnone.
  rewrite (app_send _ _ _ _ Hv), respond_send. cbv zeta.
  assert (E : group_name req (globals w) = []).
  { unfold group_name. rewrite HG, Hdef. destruct Hgrp as [-> | ->]; reflexivity. }
  rewrite E, HG, Hnone. reflexivity.
Qed.

Lemma unset_default_group_witness :
  _DEFAULT_GROUP
    (globals (mkWorld (mkGlobals (Path_of_str (lit "/data"))
                         (Path_of_str (lit "/config/groups.json")) [] (dict_of test_config))
                config_fs)) = [].
Proof.
  apply (unset_default_group ∅ config_fs
           (mkWorld (mkGlobals (Path_of_str (lit "/data"))
                       (Path_of_str (lit "/config/groups.json")) [] (dict_of test_config))
              config_fs));
    vm_compute; reflexivity.
Defined.

(** X16.  When the configuration file lists a group more than once, however
    the file is laid out, the identifier listed last is the one loaded. *)
Theorem last_entry_wins (groups_config : Path) (t : FS) (L : layout) (d : odict)
    (k v : str) :
  layout_pairs L = Some (d ++ [(k, v)]) ->
  t !! path_str groups_config = Some (File (layout_text L)) ->
  exists m, _load_groups groups_config t = Returns m /\ m !! k = Some v.
Proof.
  intros HL H. rewrite (load_groups_layout _ _ _ _ HL H).
  eexists. split; [reflexivity|]. rewrite dict_of_snoc. apply lookup_insert_eq.
Qed.

Lemma last_entry_wins_witness :
  exists m,
    _load_groups (Path_of_str (lit "/config/groups.json"))
      (<[lit "/config/groups.json" := File (layout_text twice_layout)]> ∅)
    = Returns m /\ m !! lit "dev" = Some (lit "2@g.us").
Proof.
  apply (last_entry_wins (Path_of_str (lit "/config/groups.json")) _ twice_layout
           [(lit "dev", lit "1@g.us")] (lit "dev") (lit "2@g.us"));
    vm_compute; reflexivity.
Defined.

(** ** The group field *)

(** X17.  A group field that is [null] is handled exactly as a missing
    group field. *)
Theorem null_group_is_omitted (w : World) (ms : Z) (body : gmap str jval) :
  app ms (POST_send (<[lit "group" := JNull]> body)) w
  = app ms (POST_send (delete (lit "group") body)) w.
Proof.
  unfold app. rewrite (errors_renderable_group body JNull) by (left; reflexivity).
  unfold validate.
  rewrite lookup_insert_ne by discriminate.
  rewrite lookup_delete_ne by discriminate.
  rewrite lookup_insert_eq, lookup_delete_eq. reflexivity.
Qed.



(** X19.  A request with a non-empty group field never consults the default
    group: in two states with the same base directory, the same mapping and
    the same filesystem, whatever their default groups, it gets the same
    response and leaves the same filesystem. *)
Theorem explicit_group_ignores_default (w1 w2 : World) (ms : Z)
    (body : gmap str jval) (g : str) :
  body !! lit "group" = Some (JString g) -> g <> [] ->
  _DATA_DIR (globals w1) = _DATA_DIR (globals w2) ->
  _GROUPS (globals w1) = _GROUPS (globals w2) ->
  fs w1 = fs w2 ->
  (app ms (POST_send body) w1).1 = (app ms (POST_send body) w2).1 /\
  fs (app ms (POST_send body) w1).2 = fs (app ms (POST_send body) w2).2.
Proof.
  intros Hg Hne HD HG HF. unfold app.
  destruct (validate body) as [req|] eqn:Hv; [|split; [reflexivity|exact HF]].
  assert (Hreq : group req = Some g).
  { unfold validate in Hv. rewrite Hg in Hv.
    destruct (body !! lit "message") as [[| | |m| |]|]; try discriminate Hv.
    injection Hv as <-. reflexivity. }
  rewrite !respond_send. cbv zeta.
  unfold group_name, ipc_file, ipc_dir.
  rewrite Hreq, !(py_or_nonempty g _ Hne), HD, HG, HF.
  destruct (_GROUPS (globals w2) !! g); [|split; (reflexivity || exact HF)].
  destruct (fs w2 !! _) as [[|x]|]; [|split; (reflexivity || exact HF)..].
  destruct (fs w2 !! _) as [[|y]|]; split; (reflexivity || exact HF).
Qed.

Lemma explicit_group_ignores_default_witness :
  (app 7 (POST_send (send_body (lit "hi") (Some (lit "dev")))) test_world).1
  = (app 7 (POST_send (send_body (lit "hi") (Some (lit "dev"))))
       (mkWorld (mkGlobals (_DATA_DIR test_globals) (_GROUPS_CONFIG test_globals)
                   (lit "alerts") test_groups) test_fs)).1.
Proof.
  apply (explicit_group_ignores_default test_world
           (mkWorld (mkGlobals (_DATA_DIR test_globals) (_GROUPS_CONFIG test_globals)
                       (lit "alerts") test_groups) test_fs)
           7 (send_body (lit "hi") (Some (lit "dev"))) (lit "dev"));
    (reflexivity || discriminate).
Defined.
